(** * The streaming chat parser of the Ragora client (RagoraClient.chatStream)

    A shallow embedding of the SSE framer and of the event interpreter of
    [chatStream], of the source coercions [toSearchResult],
    [mapSearchResults] and [extractChatSources] they rely on, and of the
    request timer, followed by the properties of the design document.

    Conventions.
    - A JavaScript string is the list of its UTF-16 code units ([jsstring]).
    - A [Uint8Array] chunk is a [list Byte.byte].
    - A value produced by [JSON.parse] is a [value]; an object is the list of
      its own properties, the keys pairwise distinct.
    - A number is an IEEE 754 binary64 datum ([spec_float]); only its class
      (finite or not) is ever inspected by the code.
    - An expression that may raise has type [completion A].
    - The async generator is the list of the values it yields, as a function
      of the list of chunks the reader delivers before it reports [done]. *)

From Stdlib Require Import List NArith ZArith Bool Ascii String Lia.
From Stdlib Require Import Floats.SpecFloat.
From Stdlib Require Strings.Byte.
Import ListNotations.

Set Implicit Arguments.
Local Open Scope N_scope.

(** ** JavaScript strings *)

Definition code_unit := N.
Definition jsstring := list code_unit.

(** A string literal of the source, as code units (the literals of the source
    are ASCII). *)
Definition lit (s : string) : jsstring :=
  map N_of_ascii (list_ascii_of_string s).

Fixpoint str_eqb (a b : jsstring) : bool :=
  match a, b with
  | [], [] => true
  | x :: a', y :: b' => N.eqb x y && str_eqb a' b'
  | _, _ => false
  end.

(** [WhiteSpace] and [LineTerminator] of ECMAScript: the characters removed by
    [String.prototype.trim], [trimStart] and [trimEnd]. *)
Definition is_whitespace (c : code_unit) : bool :=
  (N.eqb c 0x09 || N.eqb c 0x0A || N.eqb c 0x0B || N.eqb c 0x0C ||
   N.eqb c 0x0D || N.eqb c 0x20 || N.eqb c 0xA0 || N.eqb c 0x1680 ||
   (N.leb 0x2000 c && N.leb c 0x200A) || N.eqb c 0x2028 || N.eqb c 0x2029 ||
   N.eqb c 0x202F || N.eqb c 0x205F || N.eqb c 0x3000 || N.eqb c 0xFEFF)%bool.

(** [s.trimStart()] *)
Fixpoint trimStart (s : jsstring) : jsstring :=
  match s with
  | [] => []
  | c :: r => if is_whitespace c then trimStart r else s
  end.

(** [s.trimEnd()] *)
Fixpoint trimEnd (s : jsstring) : jsstring :=
  match s with
  | [] => []
  | c :: r =>
      match trimEnd r with
      | [] => if is_whitespace c then [] else [c]
      | t => c :: t
      end
  end.

(** [s.trim()] *)
Definition trim (s : jsstring) : jsstring := trimEnd (trimStart s).

(** [s.startsWith(p)] *)
Fixpoint startsWith (s p : jsstring) : bool :=
  match p, s with
  | [], _ => true
  | y :: p', x :: s' => N.eqb x y && startsWith s' p'
  | _ :: _, [] => false
  end.

(** [s.slice(n)] for a non-negative [n]. *)
Definition slice (n : nat) (s : jsstring) : jsstring := skipn n s.

(** The empty string, [''] in the source. *)
Definition EMPTY : jsstring := [].

Definition LF : code_unit := 0x0A.
Definition CR : code_unit := 0x0D.

(** [s.split('\n')]: never empty; a string without line feed is its own only
    element. *)
Fixpoint split (s : jsstring) : list jsstring :=
  match s with
  | [] => [[]]
  | c :: r =>
      if N.eqb c LF then [] :: split r
      else match split r with
           | [] => [[c]]
           | h :: t => (c :: h) :: t
           end
  end.

Definition NL : jsstring := [LF].
Definition DONE : jsstring := lit "[DONE]".

(** A string without line feed. *)
Definition no_LF (s : jsstring) : Prop := split s = [s].

(** [l.join(sep)] *)
Fixpoint join (sep : jsstring) (l : list jsstring) : jsstring :=
  match l with
  | [] => []
  | [a] => a
  | a :: r => a ++ sep ++ join sep r
  end.

(** [x || d] on strings: the empty string is the only falsy one. *)
Definition or_else (x d : jsstring) : jsstring :=
  match x with [] => d | _ => x end.

(** ** Values, numbers and exceptions *)

Definition number := spec_float.

Definition Number_isFinite (n : number) : bool :=
  match n with
  | S754_zero _ | S754_finite _ _ _ => true
  | S754_infinity _ | S754_nan => false
  end.

Definition num_zero : number := S754_zero false.
Definition num_one : number := S754_finite false 4503599627370496%positive (-52)%Z.

#[warnings="-register-all"]
Inductive value : Type :=
| VUndefined
| VNull
| VBool (b : bool)
| VNum (n : number)
| VStr (s : jsstring)
| VArr (elems : list value)
| VObj (props : list (jsstring * value)).

Definition object := list (jsstring * value).

(** [o.k] on an object that [JSON.parse] built: the own property, or
    [undefined]. None of the keys the client reads is a property of
    [Object.prototype]. *)
Fixpoint get (o : object) (k : jsstring) : value :=
  match o with
  | [] => VUndefined
  | (k', v) :: r => if str_eqb k' k then v else get r k
  end.

Fixpoint has_own (o : object) (k : jsstring) : bool :=
  match o with
  | [] => false
  | (k', _) :: r => str_eqb k' k || has_own r k
  end.

Inductive error := TypeError | SyntaxError.

Inductive completion (A : Type) : Type :=
| Normal (a : A)
| Throw (e : error).
Arguments Normal {A} a.
Arguments Throw {A} e.

Definition bind {A B} (c : completion A) (k : A -> completion B) : completion B :=
  match c with
  | Normal a => k a
  | Throw e => Throw e
  end.

Notation "x <- c ;; k" := (bind c (fun x => k))
  (at level 61, c at next level, right associativity).

(** [a ?? b] *)
Definition nullish (v : value) : bool :=
  match v with VUndefined | VNull => true | _ => false end.

Definition coalesce (a b : value) : value := if nullish a then b else a.

Definition typeof_string (v : value) : option jsstring :=
  match v with VStr s => Some s | _ => None end.

Definition Array_isArray (v : value) : option (list value) :=
  match v with VArr l => Some l | _ => None end.

Definition is_empty (s : jsstring) : bool :=
  match s with [] => true | _ => false end.

(** ** The shapes of the client (types.ts) *)

Record SearchResult := {
  id : jsstring;
  content : jsstring;
  score : number;
  metadata : object;
  documentId : option jsstring;
  collectionId : option jsstring
}.

(** [chunk_content] is the field [content] of [ChatStreamChunk]. *)
Record ChatStreamChunk := {
  chunk_content : jsstring;
  finishReason : option jsstring;
  sources : list SearchResult
}.

(** The result of [parseEvent]: [{ chunk?: ChatStreamChunk; done: boolean }],
    generic in the chunk so that the framer can be run with an observer in
    place of the interpreter. *)
Record ParsedEvent (A : Type) := {
  chunk : option A;
  done : bool
}.

Definition nothing {A} : ParsedEvent A := {| chunk := None; done := false |}.
Definition finished {A} : ParsedEvent A := {| chunk := None; done := true |}.
Definition emit {A} (c : A) : ParsedEvent A := {| chunk := Some c; done := false |}.

(** ** The platform's text decoder

    [new TextDecoder()] is the UTF-8 decoder of the Encoding Standard in
    replacement mode, with the byte order mark not ignored. The client calls
    it with [{ stream: true }] only, so the decoder is never flushed: the
    bytes of an unfinished sequence stay in the decoder's state. *)

Definition byte := Byte.byte.

Record utf8_decoder := {
  code_point : N;
  bytes_seen : N;
  bytes_needed : N;
  lower_boundary : N;
  upper_boundary : N
}.

Definition utf8_initial : utf8_decoder :=
  {| code_point := 0; bytes_seen := 0; bytes_needed := 0;
     lower_boundary := 0x80; upper_boundary := 0xBF |}.

Inductive handler_result :=
| Continue
| Scalar (cp : N)
| DecodeError
| DecodeErrorRestore.

Definition between (lo b hi : N) : bool := (N.leb lo b && N.leb b hi)%bool.

(** The handler of the UTF-8 decoder, on one byte. [DecodeErrorRestore] is
    the error that puts the byte back into the queue. *)
Definition utf8_handler (d : utf8_decoder) (b : N) : utf8_decoder * handler_result :=
  if N.eqb (bytes_needed d) 0 then
    if between 0x00 b 0x7F then (d, Scalar b)
    else if between 0xC2 b 0xDF then
      ({| code_point := N.land b 0x1F; bytes_seen := bytes_seen d;
          bytes_needed := 1;
          lower_boundary := lower_boundary d;
          upper_boundary := upper_boundary d |}, Continue)
    else if between 0xE0 b 0xEF then
      ({| code_point := N.land b 0xF; bytes_seen := bytes_seen d;
          bytes_needed := 2;
          lower_boundary := if N.eqb b 0xE0 then 0xA0 else lower_boundary d;
          upper_boundary := if N.eqb b 0xED then 0x9F else upper_boundary d |},
       Continue)
    else if between 0xF0 b 0xF4 then
      ({| code_point := N.land b 0x7; bytes_seen := bytes_seen d;
          bytes_needed := 3;
          lower_boundary := if N.eqb b 0xF0 then 0x90 else lower_boundary d;
          upper_boundary := if N.eqb b 0xF4 then 0x8F else upper_boundary d |},
       Continue)
    else (d, DecodeError)
  else if negb (between (lower_boundary d) b (upper_boundary d)) then
    (utf8_initial, DecodeErrorRestore)
  else
    let cp := N.lor (N.shiftl (code_point d) 6) (N.land b 0x3F) in
    let seen := bytes_seen d + 1 in
    if N.eqb seen (bytes_needed d) then (utf8_initial, Scalar cp)
    else ({| code_point := cp; bytes_seen := seen;
             bytes_needed := bytes_needed d;
             lower_boundary := 0x80; upper_boundary := 0xBF |}, Continue).

Definition REPLACEMENT : N := 0xFFFD.

Definition scalars_of (r : handler_result) : list N :=
  match r with
  | Continue => []
  | Scalar cp => [cp]
  | DecodeError | DecodeErrorRestore => [REPLACEMENT]
  end.

(** One byte of the queue in replacement mode: a restored byte is handled
    again, by a decoder that the error has reset. *)
Definition process_byte (d : utf8_decoder) (b : byte) : utf8_decoder * list N :=
  match utf8_handler d (Byte.to_N b) with
  | (d', DecodeErrorRestore) =>
      let (d'', r) := utf8_handler d' (Byte.to_N b) in
      (d'', REPLACEMENT :: scalars_of r)
  | (d', r) => (d', scalars_of r)
  end.

Fixpoint process_queue (d : utf8_decoder) (q : list byte) : utf8_decoder * list N :=
  match q with
  | [] => (d, [])
  | b :: q' =>
      let (d1, out1) := process_byte d b in
      let (d2, out2) := process_queue d1 q' in
      (d2, out1 ++ out2)
  end.

(** A scalar value as UTF-16 code units. *)
Definition utf16 (cp : N) : jsstring :=
  if N.ltb cp 0x10000 then [cp]
  else [0xD800 + N.shiftr (cp - 0x10000) 10; 0xDC00 + N.land (cp - 0x10000) 0x3FF].

(** Serialization of the decoder's output: the first scalar value of the
    stream is dropped when it is the byte order mark. *)
Fixpoint serialize (BOM_seen : bool) (items : list N) : bool * jsstring :=
  match items with
  | [] => (BOM_seen, [])
  | item :: r =>
      if BOM_seen then
        let (b, out) := serialize BOM_seen r in (b, utf16 item ++ out)
      else if N.eqb item 0xFEFF then serialize true r
      else let (b, out) := serialize true r in (b, utf16 item ++ out)
  end.

Record TextDecoder := {
  decoder_state : utf8_decoder;
  BOM_seen : bool
}.

Definition new_TextDecoder : TextDecoder :=
  {| decoder_state := utf8_initial; BOM_seen := false |}.

(** [decoder.decode(value, { stream: true })] *)
Definition decode (t : TextDecoder) (value : list byte) : TextDecoder * jsstring :=
  let (d, scalars) := process_queue (decoder_state t) value in
  let (bom, text) := serialize (BOM_seen t) scalars in
  ({| decoder_state := d; BOM_seen := bom |}, text).

(** ** The framer: the read loop of [chatStream]

    The loop is written once, over the function that interprets a frame; the
    client runs it with [parseEvent]. *)

Record stream_state := {
  decoder : TextDecoder;
  buffer : jsstring;
  eventName : jsstring;
  dataLines : list jsstring
}.

Definition initial_state : stream_state :=
  {| decoder := new_TextDecoder;
     buffer := EMPTY;
     eventName := lit "message";
     dataLines := [] |}.

(** [lines.pop() ?? ''], with the array that is left. *)
Definition pop (lines : list jsstring) : list jsstring * jsstring :=
  (removelast lines, last lines (EMPTY)).

Definition yield {A} (c : option A) : list A :=
  match c with
  | Some x => [x]
  | None => []
  end.

Section Framer.

Variable A : Type.
Variable interpret : jsstring -> list jsstring -> ParsedEvent A.

(** The [for (const rawLine of lines)] loop: the values yielded, and the frame
    state when the loop ends, or [None] when it executes [return]. *)
Fixpoint for_lines (eventName : jsstring) (dataLines lines : list jsstring)
  : list A * option (jsstring * list jsstring) :=
  match lines with
  | [] => ([], Some (eventName, dataLines))
  | rawLine :: rest =>
      let line := trimEnd rawLine in
      if is_empty line then
        let parsed := interpret eventName dataLines in
        if done parsed then (yield (chunk parsed), None)
        else
          let (ys, st) := for_lines (lit "message") [] rest in
          (yield (chunk parsed) ++ ys, st)
      else if startsWith line (lit "event:") then
        for_lines (or_else (trim (slice 6 line)) (lit "message")) dataLines rest
      else if startsWith line (lit "data:") then
        for_lines eventName (dataLines ++ [trimStart (slice 5 line)]) rest
      else for_lines eventName dataLines rest
  end.

(** One iteration of [while (true)] on a chunk the reader delivered. *)
Definition on_chunk (st : stream_state) (value : list byte)
  : list A * option stream_state :=
  let (dec, text) := decode (decoder st) value in
  let buffer := buffer st ++ text in
  let (lines, buffer) := pop (split buffer) in
  let (ys, next) := for_lines (eventName st) (dataLines st) lines in
  (ys, match next with
       | Some (ev, dl) =>
           Some {| decoder := dec; buffer := buffer;
                   eventName := ev; dataLines := dl |}
       | None => None
       end).

(** The iteration on which the reader reports [done]. *)
Definition on_done (st : stream_state) : list A :=
  let tail := trimEnd (buffer st) in
  let (eventName, dataLines) :=
    if startsWith tail (lit "event:") then
      (or_else (trim (slice 6 tail)) (lit "message"), dataLines st)
    else if startsWith tail (lit "data:") then
      (eventName st, dataLines st ++ [trimStart (slice 5 tail)])
    else (eventName st, dataLines st) in
  yield (chunk (interpret eventName dataLines)).

(** The [while (true)] loop, on the chunks the reader delivers before it
    reports [done]. *)
Fixpoint read_loop (st : stream_state) (chunks : list (list byte)) : list A :=
  match chunks with
  | [] => on_done st
  | value :: more =>
      match on_chunk st value with
      | (ys, Some st') => ys ++ read_loop st' more
      | (ys, None) => ys
      end
  end.

(** The iterations before the reader reports [done]: the values yielded, and
    the state the [done] iteration finds, or [None] after a [return]. *)
Fixpoint drain (st : stream_state) (chunks : list (list byte))
  : list A * option stream_state :=
  match chunks with
  | [] => ([], Some st)
  | value :: more =>
      match on_chunk st value with
      | (ys, Some st') => let (ys', r) := drain st' more in (ys ++ ys', r)
      | (ys, None) => (ys, None)
      end
  end.

(** The observer: the loop run with [watch] yields the frames it hands to
    [interpret], and stops where the loop run with [interpret] does. *)
Definition watch (eventName : jsstring) (dataLines : list jsstring)
  : ParsedEvent (jsstring * list jsstring) :=
  {| chunk := Some (eventName, dataLines);
     done := done (interpret eventName dataLines) |}.

(** What a frame makes the loop yield, and whether it ends the loop. *)
Definition yields_of (f : jsstring * list jsstring) : list A :=
  yield (chunk (interpret (fst f) (snd f))).

Definition closes (f : jsstring * list jsstring) : bool :=
  done (interpret (fst f) (snd f)).

End Framer.

(** ** Coercions of the client

    The platform functions the client calls are parameters: [JSON.parse]
    (which raises [SyntaxError] on a text that is not JSON), the conversion
    of a string to a number and the conversion of a number to a string. *)

Class Platform := {
  JSON_parse : jsstring -> completion value;
  StringToNumber : jsstring -> number;
  NumberToString : number -> jsstring
}.

Section Client.

Context {P : Platform}.

(** [String(v)] (ToString). An array is joined with commas, [null] and
    [undefined] elements giving the empty string. An object converts through
    [Object.prototype.toString], unless it has an own property [toString]:
    a property built by [JSON.parse] is never callable, and the conversion
    raises [TypeError]. *)
Fixpoint ToString (v : value) : completion jsstring :=
  match v with
  | VUndefined => Normal (lit "undefined")
  | VNull => Normal (lit "null")
  | VBool true => Normal (lit "true")
  | VBool false => Normal (lit "false")
  | VNum n => Normal (NumberToString n)
  | VStr s => Normal s
  | VArr l =>
      parts <- (fix elements (l : list value) : completion (list jsstring) :=
                  match l with
                  | [] => Normal []
                  | e :: r =>
                      s <- (if nullish e then Normal [] else ToString e) ;;
                      ss <- elements r ;;
                      Normal (s :: ss)
                  end) l ;;
      Normal (join (lit ",") parts)
  | VObj o =>
      if has_own o (lit "toString") then Throw TypeError
      else Normal (lit "[object Object]")
  end.

(** [Number(v)] (ToNumber); an array or an object goes through its string. *)
Definition ToNumber (v : value) : completion number :=
  match v with
  | VUndefined => Normal S754_nan
  | VNull => Normal num_zero
  | VBool true => Normal num_one
  | VBool false => Normal num_zero
  | VNum n => Normal n
  | VStr s => Normal (StringToNumber s)
  | VArr _ | VObj _ => s <- ToString v ;; Normal (StringToNumber s)
  end.

(** [RagoraClient.isRecord], with the narrowing of its type guard. *)
Definition isRecord (v : value) : option object :=
  match v with
  | VObj o => Some o
  | _ => None
  end.

Definition toSearchResult (raw : object) : completion SearchResult :=
  let scoreRaw := get raw (lit "score") in
  parsedScore <- match scoreRaw with
                 | VNum n => Normal n
                 | _ => ToNumber (coalesce scoreRaw (VNum num_zero))
                 end ;;
  let metadata := match isRecord (get raw (lit "metadata")) with
                  | Some m => m
                  | None => []
                  end in
  id <- ToString (coalesce (coalesce (get raw (lit "id")) (get raw (lit "chunk_id")))
                           (VStr (EMPTY))) ;;
  Normal {|
    id := id;
    content :=
      match typeof_string (get raw (lit "text")) with
      | Some text => text
      | None =>
          match typeof_string (get raw (lit "content")) with
          | Some c => c
          | None => EMPTY
          end
      end;
    score := if Number_isFinite parsedScore then parsedScore else num_zero;
    metadata := metadata;
    documentId := typeof_string (get raw (lit "document_id"));
    collectionId := typeof_string (get raw (lit "collection_id"))
  |}.

(** The [for ... of] loop of [mapSearchResults]. *)
Fixpoint mapSearchResults_loop (rawResults : list value)
  : completion (list SearchResult) :=
  match rawResults with
  | [] => Normal []
  | raw :: rest =>
      match isRecord raw with
      | None => mapSearchResults_loop rest
      | Some r =>
          x <- toSearchResult r ;;
          xs <- mapSearchResults_loop rest ;;
          Normal (x :: xs)
      end
  end.

Definition mapSearchResults (rawResults : value) : completion (list SearchResult) :=
  match Array_isArray rawResults with
  | None => Normal []
  | Some l => mapSearchResults_loop l
  end.

Definition extractChatSources (payload : object) : completion (list SearchResult) :=
  let ragoraStats := get payload (lit "ragora_stats") in
  match isRecord ragoraStats with
  | Some stats =>
      match Array_isArray (get stats (lit "sources")) with
      | Some _ => mapSearchResults (get stats (lit "sources"))
      | None => mapSearchResults (get payload (lit "sources"))
      end
  | None => mapSearchResults (get payload (lit "sources"))
  end.

(** ** The event interpreter *)

(** The constants [firstChoice], [delta], [content] and [finishReason] of the
    default branch of [parseEvent]. *)
Definition firstChoice (parsed : object) : object :=
  let choices := match Array_isArray (get parsed (lit "choices")) with
                 | Some l => l
                 | None => []
                 end in
  match choices with
  | c :: _ => match isRecord c with Some o => o | None => [] end
  | [] => []
  end.

Definition delta (parsed : object) : object :=
  match isRecord (get (firstChoice parsed) (lit "delta")) with
  | Some d => d
  | None => []
  end.

Definition delta_content (parsed : object) : jsstring :=
  match typeof_string (get (delta parsed) (lit "content")) with
  | Some c => c
  | None => EMPTY
  end.

Definition finish_reason (parsed : object) : option jsstring :=
  typeof_string (get (firstChoice parsed) (lit "finish_reason")).

(** [!finishReason]: [undefined] and the empty string are falsy. *)
Definition falsy (f : option jsstring) : bool :=
  match f with
  | None => true
  | Some s => is_empty s
  end.

(** The body of the [try] block of [parseEvent]. *)
Definition parseEvent_try (currentEvent dataStr : jsstring)
  : completion (ParsedEvent ChatStreamChunk) :=
  parsed <- JSON_parse dataStr ;;
  match isRecord parsed with
  | None => Normal nothing
  | Some parsed =>
      if (str_eqb currentEvent (lit "ragora_metadata") ||
          str_eqb currentEvent (lit "ragora_complete"))%bool
      then
        sources <- extractChatSources parsed ;;
        if (List.length sources =? 0)%nat then Normal nothing
        else Normal (emit {| chunk_content := EMPTY;
                             finishReason := None;
                             sources := sources |})
      else
        let content := delta_content parsed in
        let finishReason := finish_reason parsed in
        sources <- extractChatSources parsed ;;
        if (is_empty content && falsy finishReason && (List.length sources =? 0)%nat)%bool
        then Normal nothing
        else Normal (emit {| chunk_content := content;
                             finishReason := finishReason;
                             sources := sources |})
  end.

Definition parseEvent (currentEvent : jsstring) (currentDataLines : list jsstring)
  : ParsedEvent ChatStreamChunk :=
  if (List.length currentDataLines =? 0)%nat then nothing
  else
    let dataStr := join NL currentDataLines in
    if str_eqb dataStr DONE then finished
    else
      match parseEvent_try currentEvent dataStr with
      | Normal r => r
      | Throw _ => nothing
      end.

(** [chatStream], once the response is [ok] and its body readable: the chunks
    yielded, for the chunks of the body. *)
Definition chatStream (body : list (list byte)) : list ChatStreamChunk :=
  read_loop parseEvent initial_state body.

(** The frames [chatStream] hands to [parseEvent], in order. *)
Definition chatStream_frames (body : list (list byte))
  : list (jsstring * list jsstring) :=
  read_loop (watch parseEvent) initial_state body.

End Client.

(** ** A reference platform

    The platform functions written out after ECMA-262: [JSON.parse], the
    conversion of a string to a number and the conversion of a number to a
    string (the shortest decimal that reads back as the number). The
    properties of the client are proved for every platform; the examples
    run on this one. *)

Module Reference.

Definition ch (a : ascii) : code_unit := N_of_ascii a.

Definition QUOTE : code_unit := 0x22.

Definition is_digit (c : code_unit) : bool := between (ch "0") c (ch "9").

Definition digit_value (c : code_unit) : N := c - ch "0".

Definition hex_value (c : code_unit) : option N :=
  if is_digit c then Some (c - ch "0")
  else if between (ch "a") c (ch "f") then Some (c - ch "a" + 10)
  else if between (ch "A") c (ch "F") then Some (c - ch "A" + 10)
  else None.

(** The longest prefix of decimal digits, and what follows it. *)
Fixpoint take_digits (s : jsstring) : jsstring * jsstring :=
  match s with
  | c :: r =>
      if is_digit c then let (ds, rest) := take_digits r in (c :: ds, rest)
      else ([], s)
  | [] => ([], [])
  end.

Definition digits_value (ds : jsstring) : N :=
  fold_left (fun acc c => 10 * acc + digit_value c) ds 0.

(** The binary64 number nearest to [m * 10 ^ e10], ties to even. A negative
    exponent is a division: the quotient is taken with a sticky last bit
    below every rounding position of the format. *)
Definition to_number (negative : bool) (m : N) (e10 : Z) : number :=
  match m with
  | N0 => S754_zero negative
  | Npos p =>
      if (0 <=? e10)%Z then
        binary_round 53 1024 negative (p * Z.to_pos (10 ^ e10))%positive 0
      else
        let q := (10 ^ (- e10))%Z in
        let k := 1080%Z in
        let n := (Z.pos p * 2 ^ k / q)%Z in
        let sticky := if ((Z.pos p * 2 ^ k) mod q =? 0)%Z then 0%Z else 1%Z in
        match (2 * n + sticky)%Z with
        | Z.pos m' => binary_round 53 1024 negative m' (- (k + 1))
        | _ => S754_zero negative
        end
  end.

(** The exponent part [e] or [E], sign, digits: its value and the rest. *)
Definition take_exponent (s : jsstring) : option (Z * jsstring) :=
  match s with
  | c :: r =>
      if (N.eqb c (ch "e") || N.eqb c (ch "E"))%bool then
        let '(negative, r') :=
          match r with
          | sg :: r' =>
              if N.eqb sg (ch "-") then (true, r')
              else if N.eqb sg (ch "+") then (false, r')
              else (false, r)
          | [] => (false, r)
          end in
        match take_digits r' with
        | ([], _) => None
        | (ds, rest) =>
            let e := Z.of_N (digits_value ds) in
            Some (if negative then (- e)%Z else e, rest)
        end
      else Some (0%Z, s)
  | [] => Some (0%Z, s)
  end.

(** A JSON number at the head of the text: [-]? int frac? exp?. *)
Definition json_number (s : jsstring) : option (number * jsstring) :=
  let '(negative, s1) :=
    match s with
    | c :: r => if N.eqb c (ch "-") then (true, r) else (false, s)
    | [] => (false, s)
    end in
  match take_digits s1 with
  | ([], _) => None
  | (int, s2) =>
      let leading_zero :=
        match int with
        | z :: _ :: _ => N.eqb z (ch "0")
        | _ => false
        end in
      if leading_zero then None
      else
        let '(frac, s3) :=
          match s2 with
          | dot :: r => if N.eqb dot (ch ".") then take_digits r else ([], s2)
          | [] => ([], s2)
          end in
        let bad_fraction :=
          match s2, frac with
          | dot :: _, [] => N.eqb dot (ch ".")
          | _, _ => false
          end in
        if bad_fraction then None
        else
          match take_exponent s3 with
          | None => None
          | Some (e, rest) =>
              Some (to_number negative (digits_value (int ++ frac))
                              (e - Z.of_nat (List.length frac)), rest)
          end
  end.


(** *** [JSON.parse] *)

Definition is_json_whitespace (c : code_unit) : bool :=
  (N.eqb c 0x09 || N.eqb c 0x0A || N.eqb c 0x0D || N.eqb c 0x20)%bool.

Fixpoint skip_whitespace (s : jsstring) : jsstring :=
  match s with
  | c :: r => if is_json_whitespace c then skip_whitespace r else s
  | [] => []
  end.

(** The characters of a JSON string after its opening quote, up to the
    closing quote, escapes resolved; and the rest of the text. *)
Fixpoint json_string (s : jsstring) : option (jsstring * jsstring) :=
  match s with
  | [] => None
  | c :: r =>
      if N.eqb c QUOTE then Some ([], r)
      else if N.eqb c (ch "\") then
        match r with
        | e :: r1 =>
            if N.eqb e (ch "u") then
              match r1 with
              | h1 :: h2 :: h3 :: h4 :: r2 =>
                  match hex_value h1, hex_value h2, hex_value h3, hex_value h4 with
                  | Some a, Some b, Some c', Some d =>
                      match json_string r2 with
                      | Some (cs, rest) =>
                          Some (((a * 16 + b) * 16 + c') * 16 + d :: cs, rest)
                      | None => None
                      end
                  | _, _, _, _ => None
                  end
              | _ => None
              end
            else
              let unescaped :=
                if N.eqb e QUOTE then Some QUOTE
                else if N.eqb e (ch "\") then Some (ch "\")
                else if N.eqb e (ch "/") then Some (ch "/")
                else if N.eqb e (ch "b") then Some 0x08
                else if N.eqb e (ch "f") then Some 0x0C
                else if N.eqb e (ch "n") then Some 0x0A
                else if N.eqb e (ch "r") then Some 0x0D
                else if N.eqb e (ch "t") then Some 0x09
                else None in
              match unescaped, json_string r1 with
              | Some u, Some (cs, rest) => Some (u :: cs, rest)
              | _, _ => None
              end
        | [] => None
        end
      else if N.ltb c 0x20 then None
      else
        match json_string r with
        | Some (cs, rest) => Some (c :: cs, rest)
        | None => None
        end
  end.

(** The definition of a property: a later member of the same key takes the
    place of the earlier one. *)
Fixpoint define_property (o : object) (k : jsstring) (v : value) : object :=
  match o with
  | [] => [(k, v)]
  | (k', v') :: r =>
      if str_eqb k' k then (k, v) :: r else (k', v') :: define_property r k v
  end.

Definition expect (c : code_unit) (s : jsstring) : option jsstring :=
  match s with
  | x :: r => if N.eqb x c then Some r else None
  | [] => None
  end.

(** A JSON value at the head of the text, after white space. The fuel
    bounds the number of nested and successive values. *)
Fixpoint json_value (fuel : nat) (s : jsstring) : option (value * jsstring) :=
  match fuel with
  | O => None
  | S fuel =>
      match skip_whitespace s with
      | [] => None
      | c :: r =>
          if N.eqb c (ch "{") then
            match skip_whitespace r with
            | x :: r' =>
                if N.eqb x (ch "}") then Some (VObj [], r')
                else json_members fuel (x :: r') []
            | [] => None
            end
          else if N.eqb c (ch "[") then
            match skip_whitespace r with
            | x :: r' =>
                if N.eqb x (ch "]") then Some (VArr [], r')
                else json_elements fuel (x :: r') []
            | [] => None
            end
          else if N.eqb c QUOTE then
            match json_string r with
            | Some (str, rest) => Some (VStr str, rest)
            | None => None
            end
          else if startsWith (c :: r) (lit "true") then
            Some (VBool true, skipn 4 (c :: r))
          else if startsWith (c :: r) (lit "false") then
            Some (VBool false, skipn 5 (c :: r))
          else if startsWith (c :: r) (lit "null") then
            Some (VNull, skipn 4 (c :: r))
          else
            match json_number (c :: r) with
            | Some (n, rest) => Some (VNum n, rest)
            | None => None
            end
      end
  end

with json_elements (fuel : nat) (s : jsstring) (acc : list value)
  : option (value * jsstring) :=
  match fuel with
  | O => None
  | S fuel =>
      match json_value fuel s with
      | None => None
      | Some (v, rest) =>
          match skip_whitespace rest with
          | c :: r =>
              if N.eqb c (ch ",") then json_elements fuel r (acc ++ [v])
              else if N.eqb c (ch "]") then Some (VArr (acc ++ [v]), r)
              else None
          | [] => None
          end
      end
  end

with json_members (fuel : nat) (s : jsstring) (acc : object)
  : option (value * jsstring) :=
  match fuel with
  | O => None
  | S fuel =>
      match expect QUOTE (skip_whitespace s) with
      | None => None
      | Some r =>
          match json_string r with
          | None => None
          | Some (key, r1) =>
              match expect (ch ":") (skip_whitespace r1) with
              | None => None
              | Some r2 =>
                  match json_value fuel r2 with
                  | None => None
                  | Some (v, rest) =>
                      match skip_whitespace rest with
                      | c :: r3 =>
                          if N.eqb c (ch ",") then
                            json_members fuel r3 (define_property acc key v)
                          else if N.eqb c (ch "}") then
                            Some (VObj (define_property acc key v), r3)
                          else None
                      | [] => None
                      end
                  end
              end
          end
      end
  end.

Definition JSON_parse (text : jsstring) : completion value :=
  match json_value (2 * List.length text + 2) text with
  | Some (v, rest) =>
      match skip_whitespace rest with
      | [] => Normal v
      | _ => Throw SyntaxError
      end
  | None => Throw SyntaxError
  end.


(** *** The conversion of a string to a number *)

Fixpoint radix_value (radix : N) (ds : jsstring) (acc : N) : option N :=
  match ds with
  | [] => Some acc
  | c :: r =>
      match hex_value c with
      | Some d => if N.ltb d radix then radix_value radix r (radix * acc + d) else None
      | None => None
      end
  end.

Definition radix_of_prefix (s : jsstring) : option (N * jsstring) :=
  match s with
  | z :: p :: r =>
      if N.eqb z (ch "0") then
        if (N.eqb p (ch "x") || N.eqb p (ch "X"))%bool then Some (16, r)
        else if (N.eqb p (ch "o") || N.eqb p (ch "O"))%bool then Some (8, r)
        else if (N.eqb p (ch "b") || N.eqb p (ch "B"))%bool then Some (2, r)
        else None
      else None
  | _ => None
  end.

(** [StrDecimalLiteral] without its sign: digits, a dot and digits, an
    exponent; at least one digit before the exponent. *)
Definition unsigned_decimal (negative : bool) (s : jsstring) : number :=
  if str_eqb s (lit "Infinity") then S754_infinity negative
  else
    let (int, s1) := take_digits s in
    let '(frac, s2) :=
      match s1 with
      | dot :: r => if N.eqb dot (ch ".") then take_digits r else ([], s1)
      | [] => ([], s1)
      end in
    match int ++ frac with
    | [] => S754_nan
    | ds =>
        match take_exponent s2 with
        | Some (e, []) =>
            to_number negative (digits_value ds) (e - Z.of_nat (List.length frac))
        | _ => S754_nan
        end
    end.

Definition StringToNumber (s : jsstring) : number :=
  match trim s with
  | [] => num_zero
  | c :: r =>
      match radix_of_prefix (c :: r) with
      | Some (radix, ds) =>
          match ds, radix_value radix ds 0 with
          | _ :: _, Some v => to_number false v 0
          | _, _ => S754_nan
          end
      | None =>
          if N.eqb c (ch "-") then unsigned_decimal true r
          else if N.eqb c (ch "+") then unsigned_decimal false r
          else unsigned_decimal false (c :: r)
      end
  end.

(** *** The conversion of a number to a string *)

Definition number_eqb (x y : number) : bool :=
  match x, y with
  | S754_zero a, S754_zero b => Bool.eqb a b
  | S754_infinity a, S754_infinity b => Bool.eqb a b
  | S754_nan, S754_nan => true
  | S754_finite a m e, S754_finite b m' e' =>
      (Bool.eqb a b && Pos.eqb m m' && Z.eqb e e')%bool
  | _, _ => false
  end.

Local Open Scope Z_scope.

(** [x < 10 ^ n], for [x = num / den]. *)
Definition below_power (num den n : Z) : bool :=
  if 0 <=? n then num <? den * 10 ^ n else num * 10 ^ (- n) <? den.

(** The [n] with [10 ^ (n - 1) <= x < 10 ^ n]. *)
Fixpoint decimal_exponent (fuel : nat) (num den n : Z) : Z :=
  match fuel with
  | O => n
  | S fuel =>
      if below_power num den n then n
      else decimal_exponent fuel num den (n + 1)
  end.

(** The [k]-digit integer [s] for which [s * 10 ^ (n - k)] is the number
    [x = num / den], the nearest one to [x] and the even one at a tie, when
    there is one; with the exponent [n] it goes with. *)
Definition candidate (x : number) (num den n k : Z) : option (Z * Z) :=
  let sc := n - k in
  let '(a, b) := if 0 <=? sc then (num, den * 10 ^ sc) else (num * 10 ^ (- sc), den) in
  let lo := a / b in
  let hi := lo + 1 in
  let lo_ok := number_eqb (to_number false (Z.to_N lo) sc) x in
  let hi_ok := number_eqb (to_number false (Z.to_N hi) sc) x in
  let up := if hi =? 10 ^ k then (10 ^ (k - 1), n + 1) else (hi, n) in
  match lo_ok, hi_ok with
  | true, true =>
      match 2 * (a mod b) ?= b with
      | Lt => Some (lo, n)
      | Gt => Some up
      | Eq => if Z.even lo then Some (lo, n) else Some up
      end
  | true, false => Some (lo, n)
  | false, true => Some up
  | false, false => None
  end.

(** The least [k] that has a candidate, from [k] on. *)
Fixpoint shortest (fuel : nat) (x : number) (num den n k : Z) : Z * Z * Z :=
  match fuel with
  | O => (0, k, n)
  | S fuel =>
      match candidate x num den n k with
      | Some (s, n') => (s, k, n')
      | None => shortest fuel x num den n (k + 1)
      end
  end.

(** The [k] decimal digits of [s]. *)
Fixpoint digits_of (k : nat) (s : Z) (acc : jsstring) : jsstring :=
  match k with
  | O => acc
  | S k => digits_of k (s / 10) ((ch "0" + Z.to_N (s mod 10))%N :: acc)
  end.

Fixpoint decimal (fuel : nat) (s : Z) (acc : jsstring) : jsstring :=
  match fuel with
  | O => acc
  | S fuel =>
      let acc := (ch "0" + Z.to_N (s mod 10))%N :: acc in
      if s / 10 =? 0 then acc else decimal fuel (s / 10) acc
  end.

Definition zeros (n : Z) : jsstring := repeat (ch "0") (Z.to_nat n).

Definition format (digits : jsstring) (k n : Z) : jsstring :=
  if (k <=? n) && (n <=? 21) then digits ++ zeros (n - k)
  else if (0 <? n) && (n <=? 21) then
    firstn (Z.to_nat n) digits ++ lit "." ++ skipn (Z.to_nat n) digits
  else if (-6 <? n) && (n <=? 0) then lit "0." ++ zeros (- n) ++ digits
  else
    let e := n - 1 in
    let exponent :=
      lit "e" ++ (if e <? 0 then lit "-" else lit "+") ++ decimal 4 (Z.abs e) [] in
    match digits with
    | d :: (_ :: _) as more => d :: lit "." ++ more ++ exponent
    | _ => digits ++ exponent
    end.

Definition NumberToString (x : number) : jsstring :=
  match x with
  | S754_nan => lit "NaN"
  | S754_zero _ => lit "0"
  | S754_infinity negative =>
      if negative then lit "-Infinity" else lit "Infinity"
  | S754_finite negative m e =>
      let '(num, den) :=
        if 0 <=? e then (Z.pos m * 2 ^ e, 1) else (Z.pos m, 2 ^ (- e)) in
      let n := decimal_exponent 700 num den (-330) in
      let '(s, k, n') := shortest 17 (S754_finite false m e) num den n 1 in
      (if negative then lit "-" else []) ++
      format (digits_of (Z.to_nat k) s []) k n'
  end.

Local Close Scope Z_scope.

Definition platform : Platform :=
  Build_Platform JSON_parse StringToNumber NumberToString.

End Reference.

(** The bytes of an ASCII text. *)
Definition bytes (s : string) : list byte := list_byte_of_string s.

(** ** The line trimming as the design document words it

    "each right-trimmed of trailing [\r]": the carriage returns that end the
    line are removed, and nothing else. *)
Fixpoint spec_trim_CR (s : jsstring) : jsstring :=
  match s with
  | [] => []
  | c :: r =>
      match spec_trim_CR r with
      | [] => if N.eqb c CR then [] else [c]
      | t => c :: t
      end
  end.

(** ** The request timer

    Time is a number of milliseconds since the call. [chatStream] arms one
    timer before the request, [setTimeout(() => controller.abort(),
    this.timeout)], and clears it in [finally]; nothing in between touches
    it. A pending [fetch] or [reader.read()] is rejected when the timer
    fires. The arrivals are the times at which the awaited results (the
    response, each chunk, the end of the body) become available, in
    order. *)

Module Liveness.

Inductive outcome := Completed | Aborted.

Definition setTimeout (now delay : N) : N := now + delay.

(** The awaits of [chatStream] against the timer armed at the call: the
    deadline is the one [setTimeout] fixed. *)
Fixpoint await_all (deadline : N) (arrivals : list N) : outcome :=
  match arrivals with
  | [] => Completed
  | t :: more =>
      if N.leb deadline t then Aborted else await_all deadline more
  end.

Definition chatStream_timing (timeout : N) (arrivals : list N) : outcome :=
  let deadline := setTimeout 0 timeout in
  await_all deadline arrivals.

(** The timer as the changelog words it ("Streaming timeout now resets on
    each chunk instead of using a fixed wall-clock timeout"): each arrival
    arms the timer again. *)
Fixpoint await_all_resetting (timeout deadline : N) (arrivals : list N) : outcome :=
  match arrivals with
  | [] => Completed
  | t :: more =>
      if N.leb deadline t then Aborted
      else await_all_resetting timeout (setTimeout t timeout) more
  end.

Definition changelog_timing (timeout : N) (arrivals : list N) : outcome :=
  await_all_resetting timeout (setTimeout 0 timeout) arrivals.

(** A stream is active when each awaited result arrives less than [timeout]
    after the one before it (after the call, for the first). *)
Fixpoint active_from (timeout last : N) (arrivals : list N) : bool :=
  match arrivals with
  | [] => true
  | t :: more => (N.leb last t && N.ltb t (last + timeout) && active_from timeout t more)%bool
  end.

Definition active (timeout : N) (arrivals : list N) : bool :=
  active_from timeout 0 arrivals.

End Liveness.

(** ** Sample streams *)

Module Samples.

Local Open Scope string_scope.

Definition nl : string := String "010" EmptyString.

(** A JSON text, written with apostrophes for its quotation marks. *)
Definition json (s : string) : string :=
  string_of_list_ascii
    (map (fun a => if Ascii.eqb a "'" then ascii_of_nat 34 else a)
         (list_ascii_of_string s)).

Definition hi : string := json "{'choices':[{'delta':{'content':'Hi'}}]}".
Definition late : string := json "{'choices':[{'delta':{'content':'late'}}]}".
Definition keep_alive : string := json "{'choices':[{'delta':{}}]}".
Definition empty_finish : string := json "{'choices':[{'finish_reason':''}]}".
Definition with_sources : string :=
  json "{'sources':[{'id':'a','content':'x','score':0.9}]}".

(** A content frame one of whose sources has an [id] that [String] rejects. *)
Definition hi_with_bad_source : string :=
  json "{'choices':[{'delta':{'content':'Hi'}}],'sources':[{'id':{'toString':1}}]}".

(** The record a payload parses to on the reference platform. *)
Definition record_of (payload : string) : object :=
  match Reference.JSON_parse (lit payload) with
  | Normal (VObj o) => o
  | _ => []
  end.

Definition hi_record : object := Eval vm_compute in record_of hi.
Definition empty_finish_record : object := Eval vm_compute in record_of empty_finish.
Definition with_sources_record : object := Eval vm_compute in record_of with_sources.

Definition source_a : SearchResult :=
  {| id := lit "a"; content := lit "x";
     score := S754_finite false 8106479329266893 (-53);
     metadata := []; documentId := None; collectionId := None |}.

Definition hi_chunk : ChatStreamChunk :=
  {| chunk_content := lit "Hi"; finishReason := None; sources := [] |}.

(** A content frame, the sentinel, and a frame after it. *)
Definition done_then_more : list (list byte) :=
  [bytes ("data: " ++ hi ++ nl ++ nl ++
          "data: [DONE]" ++ nl ++ nl ++
          "data: " ++ late ++ nl ++ nl)].

(** A frame that the end of the body cuts before its blank line. *)
Definition unterminated : list (list byte) :=
  [bytes ("data: " ++ keep_alive ++ nl ++ nl ++ "data: " ++ hi)].

Definition unterminated_state : stream_state :=
  {| decoder := {| decoder_state := utf8_initial; BOM_seen := true |};
     buffer := lit ("data: " ++ hi);
     eventName := lit "message";
     dataLines := [] |}.

(** The content [e-acute, grinning face], cut inside both characters. *)
Definition cut_inside_characters : list (list byte) :=
  [bytes (json "data: {'choices':[{'delta':{'content':'");
   [Byte.xc3]; [Byte.xa9; Byte.xf0; Byte.x9f]; []; [Byte.x98; Byte.x80];
   bytes (json "'}}]}" ++ nl); bytes nl].

(** Sources as the service may send them. *)
Definition text_only : object := [(lit "text", VStr (lit "hello"))].
Definition chunk_id_only : object :=
  [(lit "chunk_id", VNum num_one); (lit "score", VStr (lit "0.5"))].

End Samples.

(** * The rest of the client

    The functions of the client around the streaming parser: invariants of
    the stream, the error path, the response metadata, the mapping of the
    responses and the polling loop. *)

(** ** Invariants of the stream *)

(** A chunk that carries something: a content, a finish reason or a
    source. *)
Definition informative (c : ChatStreamChunk) : Prop :=
  chunk_content c <> EMPTY \/
  (exists s, finishReason c = Some s /\ s <> EMPTY) \/
  sources c <> [].

(** The text the decoder makes of the whole body. *)
Definition decoded_text (body : list (list byte)) : jsstring :=
  snd (decode new_TextDecoder (List.concat body)).

(** The text that the loop appends to its buffer over the chunks of a body:
    one decoder, called on each chunk in turn with [{ stream: true }]. *)
Fixpoint decode_chunks (t : TextDecoder) (body : list (list byte))
  : TextDecoder * jsstring :=
  match body with
  | [] => (t, EMPTY)
  | value :: rest =>
      let (t1, s1) := decode t value in
      let (t2, s2) := decode_chunks t1 rest in
      (t2, s1 ++ s2)
  end.

(** ** UTF-8, as the service sends it

    The UTF-8 encoder of the Encoding Standard on a scalar value (a code
    point that is not a surrogate): the bytes that the decoder of
    [chatStream] receives. *)

Definition byte_of_N (n : N) : byte :=
  match Byte.of_N n with
  | Some b => b
  | None => Byte.x00
  end.

Definition is_scalar_value (cp : N) : bool :=
  (N.ltb cp 0xD800 || (N.leb 0xE000 cp && N.leb cp 0x10FFFF))%bool.

Definition continuation (cp : N) (shift : N) : byte :=
  byte_of_N (0x80 + N.land (N.shiftr cp shift) 0x3F).

Definition utf8_encode (cp : N) : list byte :=
  if N.leb cp 0x7F then [byte_of_N cp]
  else if N.leb cp 0x7FF then
    [byte_of_N (0xC0 + N.shiftr cp 6); continuation cp 0]
  else if N.leb cp 0xFFFF then
    [byte_of_N (0xE0 + N.shiftr cp 12); continuation cp 6; continuation cp 0]
  else
    [byte_of_N (0xF0 + N.shiftr cp 18); continuation cp 12; continuation cp 6;
     continuation cp 0].

(** The bytes of the encoding of a scalar value above [0x7F] but the last
    one, from the scalar value without its six low bits; and the state in
    which they leave the decoder. *)
Definition utf8_lead_bytes (hi : N) : list byte :=
  if N.leb hi 0x1F then [byte_of_N (0xC0 + hi)]
  else if N.leb hi 0x3FF then
    [byte_of_N (0xE0 + N.shiftr hi 6); byte_of_N (0x80 + N.land hi 0x3F)]
  else
    [byte_of_N (0xF0 + N.shiftr hi 12);
     byte_of_N (0x80 + N.land (N.shiftr hi 6) 0x3F);
     byte_of_N (0x80 + N.land hi 0x3F)].

Definition pending_state (hi : N) : utf8_decoder :=
  let seen := if N.leb hi 0x1F then 0 else if N.leb hi 0x3FF then 1 else 2 in
  {| code_point := hi; bytes_seen := seen; bytes_needed := seen + 1;
     lower_boundary := 0x80; upper_boundary := 0xBF |}.

Definition lead_in_range (hi : N) : bool :=
  ((N.leb 2 hi && N.ltb hi 0x360) || (N.leb 0x380 hi && N.leb hi 0x43FF))%bool.

Definition decoder_eqb (a b : utf8_decoder) : bool :=
  (N.eqb (code_point a) (code_point b) && N.eqb (bytes_seen a) (bytes_seen b) &&
   N.eqb (bytes_needed a) (bytes_needed b) &&
   N.eqb (lower_boundary a) (lower_boundary b) &&
   N.eqb (upper_boundary a) (upper_boundary b))%bool.

Definition lead_bytes_ok (hi : N) : bool :=
  negb (lead_in_range hi) ||
  match process_queue utf8_initial (utf8_lead_bytes hi) with
  | (d, []) => decoder_eqb d (pending_state hi)
  | _ => false
  end.

(** [f] on all the numbers of [bits] bits after the prefix. *)
Fixpoint all_below (bits : nat) (prefix : N) (f : N -> bool) : bool :=
  match bits with
  | O => f prefix
  | S k => (all_below k (2 * prefix) f && all_below k (2 * prefix + 1) f)%bool
  end.

(** The text without the byte order mark that the decoder drops. *)
Definition without_BOM (scalars : list N) : list N :=
  match scalars with
  | c :: r => if N.eqb c 0xFEFF then r else scalars
  | [] => []
  end.

(** ** Errors (errors.ts) *)

(** The decimal digits of a natural number: [`${n}`] for a status code. *)
Fixpoint decimal_digits (fuel : nat) (n : N) (acc : jsstring) : jsstring :=
  match fuel with
  | O => acc
  | S fuel =>
      let acc := (0x30 + n mod 10) :: acc in
      if N.eqb (n / 10) 0 then acc else decimal_digits fuel (n / 10) acc
  end.

Definition decimal_string (n : N) : jsstring :=
  decimal_digits (S (N.to_nat (N.log2 n))) n [].

Module APIError.

Record t := {
  code : jsstring;
  message : jsstring;
  details : list value;
  requestId : option jsstring
}.

End APIError.

(** [statusCode] is an HTTP status code, a natural number. *)
Module RagoraError.

Record t := {
  message : jsstring;
  statusCode : N;
  error : option APIError.t;
  requestId : option jsstring
}.

Definition isRateLimited (e : t) : bool := N.eqb (statusCode e) 429.

Definition isAuthError (e : t) : bool :=
  (N.eqb (statusCode e) 401 || N.eqb (statusCode e) 403)%bool.

Definition isRetryable (e : t) : bool :=
  existsb (N.eqb (statusCode e)) [429; 500; 502; 503; 504].

Definition toString (e : t) : jsstring :=
  let parts := [lit "[" ++ decimal_string (statusCode e) ++ lit "] " ++ message e] in
  let parts :=
    match requestId e with
    | Some (c :: r) => parts ++ [lit "(Request ID: " ++ (c :: r) ++ lit ")"]
    | _ => parts
    end in
  join (lit " ") parts.

End RagoraError.

(** What a function raises: a [RagoraError], an error of the platform, or
    a plain [new Error(message)]. *)
Inductive exception :=
| Ragora (e : RagoraError.t)
| Native (e : error)
| Failure (message : jsstring).

Inductive outcome (A : Type) : Type :=
| Returns (a : A)
| Raises (e : exception).
Arguments Returns {A} a.
Arguments Raises {A} e.

(** ** Responses *)

(** A response of [fetch]: its status, its status text, its headers
    ([headers.get], [null] being [None]) and what [response.json()] gives.
    [ok] is the status being in the range 200-299 (Fetch Standard). *)
Record Response := {
  status : N;
  statusText : jsstring;
  headers : jsstring -> option jsstring;
  json : completion value
}.

Definition ok (response : Response) : bool := between 200 (status response) 299.

(** [if (v)], [v && ...], [v ? ... : ...] *)
Definition truthy (v : value) : bool :=
  match v with
  | VUndefined | VNull => false
  | VBool b => b
  | VNum (S754_zero _) | VNum S754_nan => false
  | VNum _ => true
  | VStr s => negb (is_empty s)
  | VArr _ | VObj _ => true
  end.

(** [typeof v === 'object'] *)
Definition typeof_object (v : value) : bool :=
  match v with
  | VNull | VArr _ | VObj _ => true
  | _ => false
  end.

(** [v.k] on any value the platform parsed, for the keys the client reads
    (none of them is a property of a prototype): [null] and [undefined]
    raise, a record gives its own property, anything else [undefined]. *)
Definition get_property (v : value) (k : jsstring) : completion value :=
  match v with
  | VUndefined | VNull => Throw TypeError
  | VObj o => Normal (get o k)
  | _ => Normal VUndefined
  end.

Definition Number_isNaN (n : number) : bool :=
  match n with
  | S754_nan => true
  | _ => false
  end.

Record ResponseMetadata := {
  requestId : option jsstring;
  apiVersion : option jsstring;
  costUsd : option number;
  balanceRemainingUsd : option number;
  rateLimitLimit : option number;
  rateLimitRemaining : option number;
  rateLimitReset : option number
}.

(** The numbers of the metadata. *)
Definition numeric_fields (m : ResponseMetadata) : list (option number) :=
  [costUsd m; balanceRemainingUsd m; rateLimitLimit m; rateLimitRemaining m;
   rateLimitReset m].

(** The global functions [parseFloat] and [parseInt] of the platform. *)
Class Globals := {
  parseFloat : jsstring -> number;
  parseInt : jsstring -> N -> number
}.

Section Request.

Context {P : Platform} {G : Globals}.

(** [safeFloat] and [safeInt] of [extractMetadata]. *)
Definition safeFloat (headers : jsstring -> option jsstring) (key : jsstring)
  : option number :=
  match headers key with
  | Some (c :: r) =>
      let parsed := parseFloat (c :: r) in
      if negb (Number_isNaN parsed) then Some parsed else None
  | _ => None
  end.

Definition safeInt (headers : jsstring -> option jsstring) (key : jsstring)
  : option number :=
  match headers key with
  | Some (c :: r) =>
      let parsed := parseInt (c :: r) 10 in
      if negb (Number_isNaN parsed) then Some parsed else None
  | _ => None
  end.

Definition extractMetadata (headers : jsstring -> option jsstring) : ResponseMetadata :=
  {| requestId := headers (lit "X-Request-ID");
     apiVersion := headers (lit "X-Ragora-API-Version");
     costUsd := safeFloat headers (lit "X-Ragora-Cost-USD");
     balanceRemainingUsd := safeFloat headers (lit "X-Ragora-Balance-Remaining-USD");
     rateLimitLimit := safeInt headers (lit "X-RateLimit-Limit");
     rateLimitRemaining := safeInt headers (lit "X-RateLimit-Remaining");
     rateLimitReset := safeInt headers (lit "X-RateLimit-Reset") |}.

(** The [try] block of [handleError]: the [RagoraError] it throws, or the
    other error that it raises on the way. *)
Definition handleError_try (response : Response) (requestId : option jsstring)
  : completion RagoraError.t :=
  data <- json response ;;
  data_error <- get_property data (lit "error") ;;
  if truthy data_error then
    let errorData := data_error in
    if typeof_object errorData then
      c <- get_property errorData (lit "code") ;;
      code <- ToString (coalesce c (VStr (lit "unknown"))) ;;
      m <- get_property errorData (lit "message") ;;
      message <- ToString (coalesce m (VStr (lit "Unknown error"))) ;;
      d <- get_property errorData (lit "details") ;;
      let error :=
        {| APIError.code := code;
           APIError.message := message;
           APIError.details := match Array_isArray d with Some l => l | None => [] end;
           APIError.requestId := requestId |} in
      Normal {| RagoraError.message := APIError.message error;
                RagoraError.statusCode := status response;
                RagoraError.error := Some error;
                RagoraError.requestId := requestId |}
    else
      s <- ToString errorData ;;
      Normal {| RagoraError.message := s;
                RagoraError.statusCode := status response;
                RagoraError.error := None;
                RagoraError.requestId := requestId |}
  else
    m <- get_property data (lit "message") ;;
    s <- ToString (coalesce m (VStr (statusText response))) ;;
    Normal {| RagoraError.message := s;
              RagoraError.statusCode := status response;
              RagoraError.error := None;
              RagoraError.requestId := requestId |}.

(** [handleError]: the [RagoraError] it throws (it never returns). The
    [catch] rethrows a [RagoraError] and replaces any other error. *)
Definition handleError (response : Response) (requestId : option jsstring)
  : RagoraError.t :=
  match handleError_try response requestId with
  | Normal e => e
  | Throw _ =>
      {| RagoraError.message :=
           or_else (statusText response) (lit "HTTP " ++ decimal_string (status response));
         RagoraError.statusCode := status response;
         RagoraError.error := None;
         RagoraError.requestId := requestId |}
  end.

(** [request], from the response that [fetch] resolved with. *)
Definition request (response : Response) : outcome (value * ResponseMetadata) :=
  let metadata := extractMetadata (headers response) in
  if negb (ok response) then
    Raises (Ragora (handleError response (requestId metadata)))
  else
    match json response with
    | Normal data => Returns (data, metadata)
    | Throw e => Raises (Native e)
    end.

End Request.

(** ** The responses of [search] and [chat] *)

Module SearchResponse.

Record t := {
  results : list SearchResult;
  fragments : option (list object);
  knowledgeGraph : option object;
  globalGraphContext : option object;
  graphDebug : option object;
  object : value;
  systemInstruction : value;
  knowledgeGraphSummary : value;
  query : jsstring;
  total : nat;
  metadata : ResponseMetadata
}.

End SearchResponse.

Module ChatChoice.

Record t := {
  index : value;
  role : value;
  content : value;
  finishReason : value
}.

End ChatChoice.

Module ChatUsage.

Record t := {
  promptTokens : value;
  completionTokens : value;
  totalTokens : value
}.

End ChatUsage.

Module ChatResponse.

Record t := {
  id : value;
  object : value;
  created : value;
  model : value;
  choices : list ChatChoice.t;
  usage : option ChatUsage.t;
  sources : list SearchResult;
  metadata : ResponseMetadata
}.

End ChatResponse.

(** [l.filter(RagoraClient.isRecord)] *)
Fixpoint filter_records (l : list value) : list object :=
  match l with
  | [] => []
  | v :: r =>
      match isRecord v with
      | Some o => o :: filter_records r
      | None => filter_records r
      end
  end.

(** [data as Record<string, unknown>] where [data] is not null: a value
    that is not a record has none of the keys. *)
Definition as_record (data : value) : object :=
  match data with
  | VObj o => o
  | _ => []
  end.

Section Responses.

Context {P : Platform} {G : Globals}.

(** [search], from the body and the metadata that [request] returned. *)
Definition search_response (data : value) (metadata : ResponseMetadata)
           (query : jsstring) : completion SearchResponse.t :=
  raw <- get_property data (lit "results") ;;
  results <- mapSearchResults raw ;;
  data_fragments <- get_property data (lit "fragments") ;;
  let fragments :=
    match Array_isArray data_fragments with
    | Some l => Some (filter_records l)
    | None => None
    end in
  object <- get_property data (lit "object") ;;
  system_instruction <- get_property data (lit "system_instruction") ;;
  knowledge_graph <- get_property data (lit "knowledge_graph") ;;
  global_graph_context <- get_property data (lit "global_graph_context") ;;
  knowledge_graph_summary <- get_property data (lit "knowledge_graph_summary") ;;
  graph_debug <- get_property data (lit "graph_debug") ;;
  Normal {| SearchResponse.object := object;
            SearchResponse.results := results;
            SearchResponse.fragments := fragments;
            SearchResponse.systemInstruction := system_instruction;
            SearchResponse.knowledgeGraph := isRecord knowledge_graph;
            SearchResponse.globalGraphContext := isRecord global_graph_context;
            SearchResponse.knowledgeGraphSummary := knowledge_graph_summary;
            SearchResponse.graphDebug := isRecord graph_debug;
            SearchResponse.query := query;
            SearchResponse.total := List.length results;
            SearchResponse.metadata := metadata |}.

Definition search (response : Response) (query : jsstring)
  : outcome SearchResponse.t :=
  match request response with
  | Raises e => Raises e
  | Returns (data, metadata) =>
      match search_response data metadata query with
      | Normal r => Returns r
      | Throw e => Raises (Native e)
      end
  end.

(** The function mapped over [data.choices]. *)
Definition chat_choice (c : value) : completion ChatChoice.t :=
  index <- get_property c (lit "index") ;;
  message <- get_property c (lit "message") ;;
  role <- get_property message (lit "role") ;;
  content <- get_property message (lit "content") ;;
  finish_reason <- get_property c (lit "finish_reason") ;;
  Normal {| ChatChoice.index := index;
            ChatChoice.role := role;
            ChatChoice.content := content;
            ChatChoice.finishReason := finish_reason |}.

Fixpoint chat_choices (l : list value) : completion (list ChatChoice.t) :=
  match l with
  | [] => Normal []
  | c :: r =>
      x <- chat_choice c ;;
      xs <- chat_choices r ;;
      Normal (x :: xs)
  end.

(** [chat], from the body and the metadata that [request] returned.
    Calling [map] on a value that is not an array raises. *)
Definition chat_response (data : value) (metadata : ResponseMetadata)
  : completion ChatResponse.t :=
  data_choices <- get_property data (lit "choices") ;;
  choices <- match Array_isArray data_choices with
             | Some l => chat_choices l
             | None => Throw TypeError
             end ;;
  sources <- extractChatSources (as_record data) ;;
  id <- get_property data (lit "id") ;;
  object <- get_property data (lit "object") ;;
  created <- get_property data (lit "created") ;;
  model <- get_property data (lit "model") ;;
  data_usage <- get_property data (lit "usage") ;;
  usage <- (if truthy data_usage then
              p <- get_property data_usage (lit "prompt_tokens") ;;
              c <- get_property data_usage (lit "completion_tokens") ;;
              t <- get_property data_usage (lit "total_tokens") ;;
              Normal (Some {| ChatUsage.promptTokens := p;
                              ChatUsage.completionTokens := c;
                              ChatUsage.totalTokens := t |})
            else Normal None) ;;
  Normal {| ChatResponse.id := id;
            ChatResponse.object := object;
            ChatResponse.created := created;
            ChatResponse.model := model;
            ChatResponse.choices := choices;
            ChatResponse.usage := usage;
            ChatResponse.sources := sources;
            ChatResponse.metadata := metadata |}.

End Responses.

(** ** Documents: [getDocumentStatus] and [waitForDocument] *)

Module DocumentStatus.

Record t := {
  id : value;
  status : value;
  filename : value;
  mimeType : value;
  vectorCount : value;
  chunkCount : value;
  progressPercent : value;
  progressStage : value;
  etaSeconds : value;
  hasTranscript : value;
  isActive : value;
  versionNumber : value;
  createdAt : value
}.

End DocumentStatus.

(** [v === 'literal'] *)
Definition is_string (v : value) (s : jsstring) : bool :=
  match v with
  | VStr x => str_eqb x s
  | _ => false
  end.

Section Documents.

Context {P : Platform} {G : Globals}.

(** [getDocumentStatus], from the body that [request] returned. *)
Definition getDocumentStatus_response (documentId : jsstring) (data : value)
  : completion DocumentStatus.t :=
  id <- get_property data (lit "id") ;;
  status <- get_property data (lit "status") ;;
  filename <- get_property data (lit "filename") ;;
  mime_type <- get_property data (lit "mime_type") ;;
  vector_count <- get_property data (lit "vector_count") ;;
  chunk_count <- get_property data (lit "chunk_count") ;;
  progress_percent <- get_property data (lit "progress_percent") ;;
  progress_stage <- get_property data (lit "progress_stage") ;;
  eta_seconds <- get_property data (lit "eta_seconds") ;;
  has_transcript <- get_property data (lit "has_transcript") ;;
  is_active <- get_property data (lit "is_active") ;;
  version_number <- get_property data (lit "version_number") ;;
  created_at <- get_property data (lit "created_at") ;;
  Normal {| DocumentStatus.id := coalesce id (VStr documentId);
            DocumentStatus.status := coalesce status (VStr (lit "unknown"));
            DocumentStatus.filename := coalesce filename (VStr EMPTY);
            DocumentStatus.mimeType := mime_type;
            DocumentStatus.vectorCount := coalesce vector_count (VNum num_zero);
            DocumentStatus.chunkCount := coalesce chunk_count (VNum num_zero);
            DocumentStatus.progressPercent := progress_percent;
            DocumentStatus.progressStage := progress_stage;
            DocumentStatus.etaSeconds := eta_seconds;
            DocumentStatus.hasTranscript := coalesce has_transcript (VBool false);
            DocumentStatus.isActive := coalesce is_active (VBool true);
            DocumentStatus.versionNumber := coalesce version_number (VNum num_one);
            DocumentStatus.createdAt := created_at |}.

Definition getDocumentStatus (documentId : jsstring) (response : Response)
  : outcome DocumentStatus.t :=
  match request response with
  | Raises e => Raises e
  | Returns (data, _) =>
      match getDocumentStatus_response documentId data with
      | Normal s => Returns s
      | Throw e => Raises (Native e)
      end
  end.

(** The errors that [waitForDocument] throws itself. *)
Definition processing_failed (documentId : jsstring) (stage : jsstring)
  : RagoraError.t :=
  {| RagoraError.message := lit "Document processing failed: " ++ stage;
     RagoraError.statusCode := 500;
     RagoraError.error := None;
     RagoraError.requestId := Some documentId |}.

Definition processing_timeout (documentId : jsstring) : RagoraError.t :=
  {| RagoraError.message :=
       lit "Timeout waiting for document " ++ documentId ++ lit " to process";
     RagoraError.statusCode := 408;
     RagoraError.error := None;
     RagoraError.requestId := Some documentId |}.

(** The [while (true)] loop of [waitForDocument]. An iteration is given by
    what [getDocumentStatus] gives and by the value of [Date.now()] the
    iteration reads after it; the result is [None] when the loop is still
    running after the iterations given. *)
Fixpoint waitForDocument_loop (documentId : jsstring) (timeout startTime : Z)
         (polls : list (outcome DocumentStatus.t * Z))
  : option (outcome DocumentStatus.t) :=
  match polls with
  | [] => None
  | (Raises e, _) :: _ => Some (Raises e)
  | (Returns status, now) :: more =>
      if is_string (DocumentStatus.status status) (lit "completed") then
        Some (Returns status)
      else if is_string (DocumentStatus.status status) (lit "failed") then
        match ToString (coalesce (DocumentStatus.progressStage status)
                                 (VStr (lit "unknown error"))) with
        | Normal stage => Some (Raises (Ragora (processing_failed documentId stage)))
        | Throw e => Some (Raises (Native e))
        end
      else
        let elapsed := (now - startTime)%Z in
        if (timeout <=? elapsed)%Z then
          Some (Raises (Ragora (processing_timeout documentId)))
        else waitForDocument_loop documentId timeout startTime more
  end.

(** [waitForDocument], with its options ([undefined] being [None]); the
    poll interval is the time the loop sleeps between two iterations. *)
Definition waitForDocument (documentId : jsstring) (options_timeout : option Z)
           (startTime : Z) (polls : list (outcome DocumentStatus.t * Z))
  : option (outcome DocumentStatus.t) :=
  let timeout := match options_timeout with Some t => t | None => 300000%Z end in
  waitForDocument_loop documentId timeout startTime polls.

Definition pollInterval_of (options_pollInterval : option Z) : Z :=
  match options_pollInterval with Some i => i | None => 2000%Z end.

End Documents.

(** An iteration that leaves the loop running: a status that is neither
    completed nor failed, read before the timeout. *)
Definition pending (timeout startTime : Z) (poll : outcome DocumentStatus.t * Z) : Prop :=
  exists status,
    fst poll = Returns status /\
    is_string (DocumentStatus.status status) (lit "completed") = false /\
    is_string (DocumentStatus.status status) (lit "failed") = false /\
    (snd poll - startTime < timeout)%Z.

(** The clock advances by the poll interval at least between the reading
    of an iteration and the reading of the next one, from the start. *)
Fixpoint paced (pollInterval last : Z) (polls : list (outcome DocumentStatus.t * Z))
  : Prop :=
  match polls with
  | [] => True
  | (_, now) :: more => (last <= now)%Z /\ paced pollInterval (now + pollInterval) more
  end.

(** ** Collections *)

Module Collection.

Record t := {
  id : value;
  ownerId : value;
  name : value;
  slug : value;
  description : value;
  totalDocuments : value;
  totalVectors : value;
  totalChunks : value;
  totalSizeBytes : value;
  createdAt : value;
  updatedAt : value
}.

Definition counters (c : t) : list value :=
  [totalDocuments c; totalVectors c; totalChunks c; totalSizeBytes c].

End Collection.

(** The object literal that [listCollections], [getCollection],
    [createCollection] and [updateCollection] build from a raw
    collection. *)
Definition toCollection (c : value) : completion Collection.t :=
  id <- get_property c (lit "id") ;;
  owner_id <- get_property c (lit "owner_id") ;;
  name <- get_property c (lit "name") ;;
  slug <- get_property c (lit "slug") ;;
  description <- get_property c (lit "description") ;;
  total_documents <- get_property c (lit "total_documents") ;;
  total_vectors <- get_property c (lit "total_vectors") ;;
  total_chunks <- get_property c (lit "total_chunks") ;;
  total_size_bytes <- get_property c (lit "total_size_bytes") ;;
  created_at <- get_property c (lit "created_at") ;;
  updated_at <- get_property c (lit "updated_at") ;;
  Normal {| Collection.id := id;
            Collection.ownerId := owner_id;
            Collection.name := name;
            Collection.slug := slug;
            Collection.description := description;
            Collection.totalDocuments := coalesce total_documents (VNum num_zero);
            Collection.totalVectors := coalesce total_vectors (VNum num_zero);
            Collection.totalChunks := coalesce total_chunks (VNum num_zero);
            Collection.totalSizeBytes := coalesce total_size_bytes (VNum num_zero);
            Collection.createdAt := created_at;
            Collection.updatedAt := updated_at |}.

(** [getCollection], [createCollection] and [updateCollection], from the
    body that [request] returned: [const collData = data.data ?? data]. *)
Definition collection_response (data : value) : completion Collection.t :=
  data_data <- get_property data (lit "data") ;;
  let collData := coalesce data_data data in
  toCollection collData.

Fixpoint toCollections (l : list value) : completion (list Collection.t) :=
  match l with
  | [] => Normal []
  | c :: r =>
      x <- toCollection c ;;
      xs <- toCollections r ;;
      Normal (x :: xs)
  end.

(** The collections of [listCollections], from the body: [data.data.map]. *)
Definition listCollections_data (data : value) : completion (list Collection.t) :=
  data_data <- get_property data (lit "data") ;;
  match data_data with
  | VArr l => toCollections l
  | _ => Throw TypeError
  end.

(** ** The constructor *)

Definition SLASH : code_unit := 0x2F.

(** [s.replace(/\/$/, '')] *)
Fixpoint strip_trailing_slash (s : jsstring) : jsstring :=
  match s with
  | [] => []
  | [c] => if N.eqb c SLASH then [] else [c]
  | c :: r => c :: strip_trailing_slash r
  end.

(** [this.baseUrl], from [options.baseUrl]. *)
Definition baseUrl_of (options_baseUrl : option jsstring) : jsstring :=
  strip_trailing_slash
    (match options_baseUrl with
     | Some url => url
     | None => lit "https://api.ragora.app"
     end).

(** ** A caller: [searchWithRetry] (examples/error-handling.ts) *)

(** The pauses of the retry loop: 5 s after a rate limit, and
    [2 ^ attempt] seconds with a random part after another error. *)
Inductive pause :=
| RateLimitPause
| BackoffPause (attempt : nat).

Record retried := {
  result : option (outcome SearchResponse.t);
  calls : nat;
  pauses : list pause
}.

(** The [for] loop of [searchWithRetry], from [attempt] on, given what the
    successive calls of [client.search] give; the result is [None] when
    the loop needs more calls than are given. *)
Fixpoint searchWithRetry_from (maxRetries attempt : nat)
         (searches : list (outcome SearchResponse.t)) : retried :=
  if (maxRetries <=? attempt)%nat then
    {| result := Some (Raises (Failure (lit "Max retries exceeded")));
       calls := 0; pauses := [] |}
  else
    match searches with
    | [] => {| result := None; calls := 0; pauses := [] |}
    | Returns response :: _ =>
        {| result := Some (Returns response); calls := 1; pauses := [] |}
    | Raises (Ragora error) :: more =>
        if RagoraError.isAuthError error then
          {| result := Some (Raises (Ragora error)); calls := 1; pauses := [] |}
        else if negb (RagoraError.isRetryable error) then
          {| result := Some (Raises (Ragora error)); calls := 1; pauses := [] |}
        else
          let pause :=
            if (attempt <? maxRetries - 1)%nat then
              [if RagoraError.isRateLimited error then RateLimitPause
               else BackoffPause attempt]
            else [] in
          let rest := searchWithRetry_from maxRetries (S attempt) more in
          {| result := result rest;
             calls := S (calls rest);
             pauses := pause ++ pauses rest |}
    | Raises e :: _ =>
        {| result := Some (Raises e); calls := 1; pauses := [] |}
    end.

Definition searchWithRetry (maxRetries : nat)
           (searches : list (outcome SearchResponse.t)) : retried :=
  searchWithRetry_from maxRetries 0 searches.

(** ** The reference platform, continued: [parseFloat] and [parseInt] *)

Module ReferenceGlobals.

Import Reference.

(** The sign at the head of the text, and the rest. *)
Definition take_sign (s : jsstring) : bool * jsstring :=
  match s with
  | c :: r =>
      if N.eqb c (ch "-") then (true, r)
      else if N.eqb c (ch "+") then (false, r)
      else (false, s)
  | [] => (false, s)
  end.

(** [parseFloat]: the longest prefix, after white space, that is a decimal
    literal. *)
Definition parseFloat (s : jsstring) : number :=
  let (negative, s0) := take_sign (trimStart s) in
  if startsWith s0 (lit "Infinity") then S754_infinity negative
  else
    let (int, s1) := take_digits s0 in
    let '(frac, s2) :=
      match s1 with
      | dot :: r => if N.eqb dot (ch ".") then take_digits r else ([], s1)
      | [] => ([], s1)
      end in
    match int ++ frac with
    | [] => S754_nan
    | ds =>
        let e := match take_exponent s2 with
                 | Some (e, _) => e
                 | None => 0%Z
                 end in
        to_number negative (digits_value ds) (e - Z.of_nat (List.length frac))
    end.

(** The value of a digit in a radix up to 36. *)
Definition digit_in_radix (c : code_unit) : option N :=
  if is_digit c then Some (c - ch "0")
  else if between (ch "a") c (ch "z") then Some (c - ch "a" + 10)
  else if between (ch "A") c (ch "Z") then Some (c - ch "A" + 10)
  else None.

(** The value of the longest prefix of digits of the radix, and whether
    there is one digit at least. *)
Fixpoint take_radix_digits (radix : N) (s : jsstring) (acc : N) (any : bool)
  : N * bool :=
  match s with
  | c :: r =>
      match digit_in_radix c with
      | Some d =>
          if N.ltb d radix then take_radix_digits radix r (radix * acc + d) true
          else (acc, any)
      | None => (acc, any)
      end
  | [] => (acc, any)
  end.

(** [parseInt], for a radix that is an integer from 0 to 36. *)
Definition parseInt (s : jsstring) (radix : N) : number :=
  let (negative, s0) := take_sign (trimStart s) in
  if ((negb (N.eqb radix 0)) && (N.ltb radix 2 || N.ltb 36 radix))%bool then S754_nan
  else
    let hex_prefix :=
      match s0 with
      | z :: x :: _ =>
          (N.eqb z (ch "0") && (N.eqb x (ch "x") || N.eqb x (ch "X")))%bool
      | _ => false
      end in
    let strip := ((N.eqb radix 0 || N.eqb radix 16) && hex_prefix)%bool in
    let r := if strip then 16 else if N.eqb radix 0 then 10 else radix in
    let digits := if strip then skipn 2 s0 else s0 in
    match take_radix_digits r digits 0 false with
    | (_, false) => S754_nan
    | (v, true) => to_number negative v 0
    end.

Definition globals : Globals := Build_Globals parseFloat parseInt.

End ReferenceGlobals.

(** ** Sample responses *)

Module MoreSamples.

(** [U+00E9] and [U+1F600] in UTF-8, cut inside both encodings. *)
Definition accented : list N := [0xE9; 0x1F600].

Definition accented_body : list (list byte) :=
  [[Byte.xc3]; [Byte.xa9; Byte.xf0; Byte.x9f]; [Byte.x98; Byte.x80]].


Local Open Scope string_scope.

Definition no_headers : jsstring -> option jsstring := fun _ => None.

Definition request_id_header (key : jsstring) : option jsstring :=
  if str_eqb key (lit "X-Request-ID") then Some (lit "req_1") else None.

(** A 502 from a gateway: the body is an HTML page, the status text is
    empty (HTTP/2). *)
Definition bad_gateway : Response :=
  {| status := 502; statusText := EMPTY; headers := no_headers;
     json := Throw SyntaxError |}.

(** A 404 of the service with a structured error. *)
Definition not_found_body : string :=
  Samples.json "{'error':{'code':'not_found','message':'Collection not found'}}".

Definition not_found_record : object := Eval vm_compute in Samples.record_of not_found_body.

Definition not_found_error : object :=
  Eval vm_compute in
    match get not_found_record (lit "error") with
    | VObj o => o
    | _ => []
    end.

Definition not_found : Response :=
  {| status := 404; statusText := lit "Not Found"; headers := request_id_header;
     json := Reference.JSON_parse (lit not_found_body) |}.

(** A 404 whose structured error has a code that [String] rejects. *)
Definition bad_code : Response :=
  {| status := 404; statusText := lit "Not Found"; headers := request_id_header;
     json := Reference.JSON_parse
               (lit (Samples.json "{'error':{'code':{'toString':1},'message':'gone'}}")) |}.

(** A search body with two records and an entry that is not a record. *)
Definition search_body : string :=
  Samples.json "{'results':[{'id':'a','text':'x','score':0.9},7,{'chunk_id':'b'}]}".

Definition search_data : value :=
  Eval vm_compute in
    match Reference.JSON_parse (lit search_body) with
    | Normal v => v
    | Throw _ => VNull
    end.

Definition search_record : object := Eval vm_compute in as_record search_data.

Definition search_raw : list value :=
  Eval vm_compute in
    match get search_record (lit "results") with
    | VArr l => l
    | _ => []
    end.

Definition no_metadata : ResponseMetadata :=
  {| requestId := None; apiVersion := None; costUsd := None;
     balanceRemainingUsd := None; rateLimitLimit := None;
     rateLimitRemaining := None; rateLimitReset := None |}.

Definition search_result : SearchResponse.t :=
  Eval vm_compute in
    match search_response (P := Reference.platform) search_data no_metadata (lit "q") with
    | Normal r => r
    | Throw _ =>
        {| SearchResponse.results := []; SearchResponse.fragments := None;
           SearchResponse.knowledgeGraph := None;
           SearchResponse.globalGraphContext := None;
           SearchResponse.graphDebug := None; SearchResponse.object := VUndefined;
           SearchResponse.systemInstruction := VUndefined;
           SearchResponse.knowledgeGraphSummary := VUndefined;
           SearchResponse.query := EMPTY; SearchResponse.total := 0;
           SearchResponse.metadata := no_metadata |}
    end.

(** A search body, status 200, with a source whose id cannot be
    converted. *)
Definition poisoned_body : string :=
  Samples.json "{'results':[{'id':'a'},{'id':{'toString':1}}]}".

Definition poisoned_record : object := Eval vm_compute in Samples.record_of poisoned_body.

Definition poisoned_raw : list value :=
  Eval vm_compute in
    match get poisoned_record (lit "results") with
    | VArr l => l
    | _ => []
    end.

Definition poisoned_source : object := [(lit "id", VObj [(lit "toString", VNum num_one)])].

Definition poisoned : Response :=
  {| status := 200; statusText := lit "OK"; headers := no_headers;
     json := Reference.JSON_parse (lit poisoned_body) |}.

(** Statuses of a document. *)
Definition document_status (status : string) : DocumentStatus.t :=
  {| DocumentStatus.id := VStr (lit "doc_1");
     DocumentStatus.status := VStr (lit status);
     DocumentStatus.filename := VStr (lit "a.pdf");
     DocumentStatus.mimeType := VUndefined;
     DocumentStatus.vectorCount := VNum num_zero;
     DocumentStatus.chunkCount := VNum num_zero;
     DocumentStatus.progressPercent := VUndefined;
     DocumentStatus.progressStage := VUndefined;
     DocumentStatus.etaSeconds := VUndefined;
     DocumentStatus.hasTranscript := VBool false;
     DocumentStatus.isActive := VBool true;
     DocumentStatus.versionNumber := VNum num_one;
     DocumentStatus.createdAt := VUndefined |}.

(** The status that a body without any field gives. *)
Definition status_of_empty_body : DocumentStatus.t :=
  {| DocumentStatus.id := VStr (lit "doc_1");
     DocumentStatus.status := VStr (lit "unknown");
     DocumentStatus.filename := VStr EMPTY;
     DocumentStatus.mimeType := VUndefined;
     DocumentStatus.vectorCount := VNum num_zero;
     DocumentStatus.chunkCount := VNum num_zero;
     DocumentStatus.progressPercent := VUndefined;
     DocumentStatus.progressStage := VUndefined;
     DocumentStatus.etaSeconds := VUndefined;
     DocumentStatus.hasTranscript := VBool false;
     DocumentStatus.isActive := VBool true;
     DocumentStatus.versionNumber := VNum num_one;
     DocumentStatus.createdAt := VUndefined |}.

(** A document that is ready at the third poll, the polls 2 s apart. *)
Definition ready_at_third : list (outcome DocumentStatus.t * Z) :=
  [(Returns (document_status "processing"), 1000%Z);
   (Returns (document_status "processing"), 3050%Z)].

(** A document that is never ready, polled with a timeout of 5 s. *)
Definition never_ready : list (outcome DocumentStatus.t * Z) :=
  [(Returns (document_status "processing"), 1000%Z);
   (Returns (document_status "processing"), 3050%Z);
   (Returns (document_status "processing"), 5100%Z);
   (Returns (document_status "processing"), 7150%Z)].

End MoreSamples.

(** * Properties *)

(** ** Strings *)

Lemma str_eqb_eq (a b : jsstring) : str_eqb a b = true <-> a = b.
Proof.
  revert b; induction a as [|x a IH]; intros [|y b]; simpl; split;
    try congruence; try reflexivity.
  - intros H. apply andb_true_iff in H as [Hx Hab].
    apply N.eqb_eq in Hx. apply IH in Hab. congruence.
  - intros H. injection H as -> ->.
    rewrite N.eqb_refl. simpl. apply IH. reflexivity.
Qed.

Lemma str_eqb_refl (a : jsstring) : str_eqb a a = true.
Proof. apply str_eqb_eq. reflexivity. Qed.

Lemma str_eqb_neq (a b : jsstring) : str_eqb a b = false <-> a <> b.
Proof.
  split.
  - intros H E. apply str_eqb_eq in E. congruence.
  - intros H. destruct (str_eqb a b) eqn:E; [|reflexivity].
    apply str_eqb_eq in E. contradiction.
Qed.

Lemma split_not_nil (s : jsstring) : split s <> [].
Proof.
  induction s as [|c r IH]; simpl; [discriminate|].
  destruct (N.eqb c LF); [discriminate|].
  destruct (split r); discriminate.
Qed.

(** Splitting a concatenation: the last element of the left part is still
    open, and is split again with the right part. *)
Lemma split_app (x y : jsstring) :
  split (x ++ y) = removelast (split x) ++ split (last (split x) [] ++ y).
Proof.
  induction x as [|c x IH]; [reflexivity|].
  cbn [app split].
  destruct (N.eqb c LF) eqn:Ec.
  - rewrite IH.
    pose proof (split_not_nil x) as Hne.
    destruct (split x) as [|h t] eqn:Ex; [contradiction|].
    reflexivity.
  - rewrite IH.
    pose proof (split_not_nil x) as Hne.
    destruct (split x) as [|h t] eqn:Ex; [contradiction|].
    destruct t as [|h' t'].
    + cbn [removelast last app split]. rewrite Ec. reflexivity.
    + reflexivity.
Qed.

Lemma removelast_app_not_nil {A} (l1 l2 : list A) :
  l2 <> [] -> removelast (l1 ++ l2) = l1 ++ removelast l2.
Proof. intros H. apply removelast_app. exact H. Qed.

Lemma last_app_not_nil {A} (l1 l2 : list A) (d : A) :
  l2 <> [] -> last (l1 ++ l2) d = last l2 d.
Proof.
  intros H. induction l1 as [|a l1 IH]; [reflexivity|].
  cbn [app]. destruct (l1 ++ l2) eqn:E.
  - destruct l1; [simpl in E; contradiction|discriminate].
  - cbn [last]. exact IH.
Qed.

(** *** [trimEnd] removes the trailing white space, all of it and only it *)

Lemma trimEnd_all_whitespace (ws : jsstring) :
  forallb is_whitespace ws = true -> trimEnd ws = [].
Proof.
  induction ws as [|c r IH]; [reflexivity|].
  cbn [forallb trimEnd]. intros H. apply andb_true_iff in H as [Hc Hr].
  rewrite (IH Hr), Hc. reflexivity.
Qed.

Lemma trimEnd_app_whitespace (s ws : jsstring) :
  forallb is_whitespace ws = true -> trimEnd (s ++ ws) = trimEnd s.
Proof.
  intros H. induction s as [|c r IH].
  - apply trimEnd_all_whitespace. exact H.
  - cbn [app trimEnd]. rewrite IH. reflexivity.
Qed.

Lemma trimEnd_suffix (s : jsstring) :
  exists ws, s = trimEnd s ++ ws /\ forallb is_whitespace ws = true.
Proof.
  induction s as [|c r (ws & E & H)].
  - exists []. split; reflexivity.
  - cbn [trimEnd]. destruct (trimEnd r) as [|x t] eqn:Et.
    + destruct (is_whitespace c) eqn:Ec.
      * exists (c :: r). split; [reflexivity|].
        cbn [forallb]. rewrite Ec. cbn [app] in E. rewrite E. exact H.
      * exists ws. split; [|exact H]. cbn [app] in *. congruence.
    + exists ws. split; [|exact H]. cbn [app]. f_equal. exact E.
Qed.

Lemma trimEnd_last (s t : jsstring) (c : code_unit) :
  trimEnd s = t ++ [c] -> is_whitespace c = false.
Proof.
  revert t; induction s as [|x r IH]; intros t; cbn [trimEnd].
  - destruct t; discriminate.
  - destruct (trimEnd r) as [|y u] eqn:Er.
    + destruct (is_whitespace x) eqn:Ex.
      * destruct t; discriminate.
      * destruct t as [|z [|? ?]]; try discriminate.
        intros H. injection H as <-. exact Ex.
    + destruct t as [|z t'].
      * discriminate.
      * intros H. injection H as _ H. apply (IH t'). exact H.
Qed.

Lemma trimEnd_idempotent (s : jsstring) : trimEnd (trimEnd s) = trimEnd s.
Proof.
  induction s as [|c r IH]; [reflexivity|].
  cbn [trimEnd]. destruct (trimEnd r) as [|x t] eqn:Er.
  - destruct (is_whitespace c) eqn:Ec; [reflexivity|].
    cbn [trimEnd]. rewrite Ec. reflexivity.
  - change (trimEnd (c :: x :: t)) with
      (match trimEnd (x :: t) with
       | [] => if is_whitespace c then [] else [c]
       | u => c :: u
       end).
    rewrite IH. reflexivity.
Qed.

(** ** The decoder is a morphism from chunks to text *)

Lemma process_queue_app (d : utf8_decoder) (a b : list byte) :
  process_queue d (a ++ b) =
  let (d1, out1) := process_queue d a in
  let (d2, out2) := process_queue d1 b in
  (d2, out1 ++ out2).
Proof.
  revert d; induction a as [|x a IH]; intros d; cbn [app process_queue].
  - destruct (process_queue d b). reflexivity.
  - destruct (process_byte d x) as [d1 o1]. rewrite IH.
    destruct (process_queue d1 a) as [d2 o2].
    destruct (process_queue d2 b) as [d3 o3].
    rewrite app_assoc. reflexivity.
Qed.

Lemma serialize_app (bom : bool) (x y : list N) :
  serialize bom (x ++ y) =
  let (b1, s1) := serialize bom x in
  let (b2, s2) := serialize b1 y in
  (b2, s1 ++ s2).
Proof.
  revert bom; induction x as [|i x IH]; intros bom; cbn [app serialize].
  - destruct (serialize bom y). reflexivity.
  - destruct bom.
    + rewrite IH. destruct (serialize true x) as [b1 s1].
      destruct (serialize b1 y) as [b2 s2]. rewrite app_assoc. reflexivity.
    + destruct (N.eqb i 0xFEFF).
      * apply IH.
      * rewrite IH. destruct (serialize true x) as [b1 s1].
        destruct (serialize b1 y) as [b2 s2]. rewrite app_assoc. reflexivity.
Qed.

Lemma decode_app (t : TextDecoder) (a b : list byte) :
  decode t (a ++ b) =
  let (t1, s1) := decode t a in
  let (t2, s2) := decode t1 b in
  (t2, s1 ++ s2).
Proof.
  unfold decode. rewrite process_queue_app.
  destruct (process_queue (decoder_state t) a) as [d1 o1].
  destruct (serialize (BOM_seen t) o1) as [b1 s1] eqn:E1. cbn [decoder_state BOM_seen].
  destruct (process_queue d1 b) as [d2 o2].
  rewrite serialize_app, E1.
  destruct (serialize b1 o2) as [b2 s2]. reflexivity.
Qed.

Lemma decode_nil (t : TextDecoder) : decode t [] = (t, []).
Proof. destruct t. reflexivity. Qed.

(** ** The read loop does not see the chunk boundaries *)

Section FramerFacts.

Variable A : Type.
Variable interpret : jsstring -> list jsstring -> ParsedEvent A.

Lemma for_lines_app (ev : jsstring) (dl l1 l2 : list jsstring) :
  for_lines interpret ev dl (l1 ++ l2) =
  match for_lines interpret ev dl l1 with
  | (ys, Some (ev', dl')) =>
      let (ys', st) := for_lines interpret ev' dl' l2 in (ys ++ ys', st)
  | (ys, None) => (ys, None)
  end.
Proof.
  revert ev dl; induction l1 as [|raw l1 IH]; intros ev dl; cbn [app for_lines].
  - destruct (for_lines interpret ev dl l2). reflexivity.
  - destruct (is_empty (trimEnd raw)).
    + destruct (done (interpret ev dl)); [reflexivity|].
      rewrite IH.
      destruct (for_lines interpret (lit "message") [] l1) as [ys [[ev' dl']|]].
      * destruct (for_lines interpret ev' dl' l2). rewrite app_assoc. reflexivity.
      * reflexivity.
    + destruct (startsWith (trimEnd raw) (lit "event:")); [apply IH|].
      destruct (startsWith (trimEnd raw) (lit "data:")); apply IH.
Qed.

(** Two chunks in a row are read as their concatenation. *)
Lemma read_loop_merge (st : stream_state) (a b : list byte) (more : list (list byte)) :
  read_loop interpret st (a :: b :: more) = read_loop interpret st ((a ++ b) :: more).
Proof.
  cbn [read_loop]. unfold on_chunk, pop.
  rewrite decode_app.
  destruct (decode (decoder st) a) as [t1 s1].
  destruct (decode t1 b) as [t2 s2] eqn:E2.
  rewrite (app_assoc (buffer st) s1 s2), (split_app (buffer st ++ s1) s2).
  set (x := buffer st ++ s1).
  pose proof (split_not_nil (last (split x) [] ++ s2)) as Hne.
  rewrite removelast_app_not_nil, last_app_not_nil by exact Hne.
  rewrite for_lines_app.
  change (EMPTY) with (@nil code_unit).
  destruct (for_lines interpret (eventName st) (dataLines st) (removelast (split x)))
    as [ys [[ev' dl']|]]; [|reflexivity].
  cbn [buffer decoder eventName dataLines]. rewrite E2.
  destruct (for_lines interpret ev' dl' (removelast (split (last (split x) [] ++ s2))))
    as [ys' [[ev'' dl'']|]]; rewrite ?app_assoc; reflexivity.
Qed.

(** The buffer never holds a line feed. *)
Lemma last_split_no_LF (s : jsstring) : no_LF (last (split s) []).
Proof.
  unfold no_LF. induction s as [|c r IH]; [reflexivity|].
  cbn [split]. destruct (N.eqb c LF) eqn:Ec.
  - pose proof (split_not_nil r). destruct (split r); [contradiction|].
    exact IH.
  - pose proof (split_not_nil r). destruct (split r) as [|h [|h' t]]; [contradiction| |].
    + cbn [last] in *. cbn [split]. rewrite Ec, IH. reflexivity.
    + exact IH.
Qed.

Lemma on_chunk_no_LF (st st' : stream_state) (value : list byte) (ys : list A) :
  on_chunk interpret st value = (ys, Some st') -> no_LF (buffer st').
Proof.
  unfold on_chunk, pop. destruct (decode (decoder st) value) as [t s].
  destruct (for_lines _ _ _ _) as [ys' [[ev dl]|]]; [|discriminate].
  intros H. injection H as _ <-. cbn [buffer].
  apply last_split_no_LF.
Qed.

(** An empty chunk before the end changes nothing. *)
Lemma read_loop_empty_chunk (st : stream_state) :
  no_LF (buffer st) ->
  read_loop interpret st [[]] = read_loop interpret st [].
Proof.
  intros H. cbn [read_loop]. unfold on_chunk, pop.
  rewrite decode_nil, app_nil_r, H. cbn [removelast last for_lines].
  destruct st; reflexivity.
Qed.

Lemma read_loop_concat (st : stream_state) (chunks : list (list byte)) :
  no_LF (buffer st) ->
  read_loop interpret st chunks = read_loop interpret st [List.concat chunks].
Proof.
  revert st; induction chunks as [|a more IH]; intros st H.
  - symmetry. apply read_loop_empty_chunk. exact H.
  - cbn [List.concat]. rewrite <- read_loop_merge.
    cbn [read_loop].
    destruct (on_chunk interpret st a) as [ys [st'|]] eqn:E; [|reflexivity].
    rewrite (IH st') by (eapply on_chunk_no_LF; exact E).
    reflexivity.
Qed.

Lemma read_loop_drain (st : stream_state) (chunks : list (list byte)) :
  read_loop interpret st chunks =
  match drain interpret st chunks with
  | (ys, Some st') => ys ++ on_done interpret st'
  | (ys, None) => ys
  end.
Proof.
  revert st; induction chunks as [|a more IH]; intros st; cbn [read_loop drain].
  - reflexivity.
  - destruct (on_chunk interpret st a) as [ys [st'|]]; [|reflexivity].
    rewrite IH. destruct (drain interpret st' more) as [ys' [st''|]].
    + rewrite app_assoc. reflexivity.
    + reflexivity.
Qed.

(** *** The observer *)

Lemma for_lines_watch (ev : jsstring) (dl lines : list jsstring) :
  for_lines interpret ev dl lines =
  let (fs, st) := for_lines (watch interpret) ev dl lines in (flat_map (yields_of interpret) fs, st).
Proof.
  revert ev dl; induction lines as [|raw rest IH]; intros ev dl; cbn [for_lines].
  - reflexivity.
  - destruct (is_empty (trimEnd raw)).
    + cbn [watch done chunk yield].
      destruct (done (interpret ev dl)).
      * cbn [flat_map app]. unfold yields_of at 1. cbn [fst snd].
        rewrite app_nil_r. reflexivity.
      * rewrite IH.
        destruct (for_lines (watch interpret) (lit "message") [] rest) as [fs st].
        reflexivity.
    + destruct (startsWith (trimEnd raw) (lit "event:")); [apply IH|].
      destruct (startsWith (trimEnd raw) (lit "data:")); apply IH.
Qed.

Lemma on_chunk_watch (st : stream_state) (value : list byte) :
  on_chunk interpret st value =
  let (fs, r) := on_chunk (watch interpret) st value in (flat_map (yields_of interpret) fs, r).
Proof.
  unfold on_chunk. destruct (decode (decoder st) value) as [t s].
  destruct (pop (split (buffer st ++ s))) as [lines b].
  rewrite for_lines_watch.
  destruct (for_lines (watch interpret) (eventName st) (dataLines st) lines) as [fs [[ev dl]|]];
    reflexivity.
Qed.

Lemma on_done_watch (st : stream_state) :
  on_done interpret st = flat_map (yields_of interpret) (on_done (watch interpret) st).
Proof.
  unfold on_done.
  destruct (startsWith (trimEnd (buffer st)) (lit "event:"));
    [|destruct (startsWith (trimEnd (buffer st)) (lit "data:"))];
    cbn [watch chunk yield flat_map]; unfold yields_of; cbn [fst snd];
    rewrite app_nil_r; reflexivity.
Qed.

Lemma read_loop_watch (st : stream_state) (chunks : list (list byte)) :
  read_loop interpret st chunks = flat_map (yields_of interpret) (read_loop (watch interpret) st chunks).
Proof.
  revert st; induction chunks as [|a more IH]; intros st; cbn [read_loop].
  - apply on_done_watch.
  - rewrite on_chunk_watch.
    destruct (on_chunk (watch interpret) st a) as [fs [st'|]]; [|reflexivity].
    rewrite flat_map_app, IH. reflexivity.
Qed.

(** Only the last frame handed to the interpreter can close the stream. *)
Lemma for_lines_watch_shape (ev : jsstring) (dl lines : list jsstring) :
  match for_lines (watch interpret) ev dl lines with
  | (fs, Some _) => forallb (fun f => negb ((closes interpret) f)) fs = true
  | (fs, None) =>
      exists fs' f, fs = fs' ++ [f] /\ (closes interpret) f = true /\
                    forallb (fun f => negb ((closes interpret) f)) fs' = true
  end.
Proof.
  revert ev dl; induction lines as [|raw rest IH]; intros ev dl; cbn [for_lines].
  - reflexivity.
  - destruct (is_empty (trimEnd raw)).
    + cbn [watch done chunk yield].
      destruct (done (interpret ev dl)) eqn:Ed.
      * exists [], (ev, dl). repeat split. exact Ed.
      * specialize (IH (lit "message") []).
        destruct (for_lines (watch interpret) (lit "message") [] rest) as [fs [st|]].
        -- cbn [app forallb]. unfold closes at 1. cbn [fst snd].
           rewrite Ed. exact IH.
        -- destruct IH as (fs' & f & -> & Hf & Hall).
           exists ((ev, dl) :: fs'), f. repeat split; [exact Hf|].
           cbn [forallb]. unfold closes at 1. cbn [fst snd].
           rewrite Ed. exact Hall.
    + destruct (startsWith (trimEnd raw) (lit "event:")); [apply IH|].
      destruct (startsWith (trimEnd raw) (lit "data:")); apply IH.
Qed.

Lemma read_loop_watch_shape (st : stream_state) (chunks : list (list byte)) :
  exists fs f, read_loop (watch interpret) st chunks = fs ++ [f] /\
               forallb (fun f => negb ((closes interpret) f)) fs = true.
Proof.
  revert st; induction chunks as [|a more IH]; intros st; cbn [read_loop].
  - unfold on_done.
    destruct (startsWith (trimEnd (buffer st)) (lit "event:"));
      [|destruct (startsWith (trimEnd (buffer st)) (lit "data:"))];
      cbn [watch chunk yield]; eexists [], _; split; reflexivity.
  - unfold on_chunk. destruct (decode (decoder st) a) as [t s].
    destruct (pop (split (buffer st ++ s))) as [lines b].
    pose proof (for_lines_watch_shape (eventName st) (dataLines st) lines) as Hs.
    destruct (for_lines (watch interpret) (eventName st) (dataLines st) lines) as [fs [[ev dl]|]].
    + destruct (IH {| decoder := t; buffer := b; eventName := ev; dataLines := dl |})
        as (fs' & f & -> & Hall).
      exists (fs ++ fs'), f. split; [apply app_assoc|].
      rewrite forallb_app, Hs, Hall. reflexivity.
    + destruct Hs as (fs' & f & -> & _ & Hall). exists fs', f. split; [reflexivity|exact Hall].
Qed.

(** A frame that (closes interpret) the stream is the last one. *)
Lemma closing_frame_last (st : stream_state) (chunks : list (list byte))
      (pre post : list (jsstring * list jsstring)) (f : jsstring * list jsstring) :
  read_loop (watch interpret) st chunks = pre ++ f :: post ->
  (closes interpret) f = true ->
  post = [].
Proof.
  intros E Hf.
  destruct (read_loop_watch_shape st chunks) as (fs & l & E' & Hall).
  rewrite E' in E.
  destruct post as [|p post']; [reflexivity|exfalso].
  assert (In f fs) as Hin.
  { assert (fs ++ [l] = (pre ++ f :: removelast (p :: post')) ++ [last (p :: post') l]) as E2.
    { rewrite E, <- app_assoc. cbn [app]. f_equal. f_equal.
      apply app_removelast_last. discriminate. }
    apply app_inj_tail in E2 as [-> _].
    apply in_or_app. right. left. reflexivity. }
  rewrite forallb_forall in Hall. apply Hall in Hin.
  rewrite Hf in Hin. discriminate.
Qed.

(** The [done] iteration reads what is left in the buffer as the loop reads a
    line that is not blank. *)
Lemma on_done_closing_line (st : stream_state) :
  exists ev dl,
    (if is_empty (trimEnd (buffer st))
     then (ev, dl) = (eventName st, dataLines st)
     else for_lines interpret (eventName st) (dataLines st) [buffer st] =
          ([], Some (ev, dl))) /\
    on_done interpret st = yield (chunk (interpret ev dl)).
Proof.
  unfold on_done. cbn [for_lines].
  destruct (trimEnd (buffer st)) as [|c t] eqn:Et.
  - exists (eventName st), (dataLines st). split; reflexivity.
  - cbn [is_empty].
    destruct (startsWith (c :: t) (lit "event:")).
    + eexists _, _. split; reflexivity.
    + destruct (startsWith (c :: t) (lit "data:"));
        eexists _, _; split; reflexivity.
Qed.

End FramerFacts.

(** ** The event interpreter *)

Section ClientFacts.

Context {P : Platform}.

Lemma parseEvent_DONE (ev : jsstring) (dl : list jsstring) :
  join NL dl = DONE -> parseEvent ev dl = finished.
Proof.
  intros H. unfold parseEvent.
  destruct dl as [|l dl']; [discriminate H|].
  cbn [List.length Nat.eqb]. rewrite H. reflexivity.
Qed.

Lemma parseEvent_done_iff (ev : jsstring) (dl : list jsstring) :
  done (parseEvent ev dl) = true <-> join NL dl = DONE.
Proof.
  split; [|intros H; rewrite (parseEvent_DONE ev dl H); reflexivity].
  unfold parseEvent. destruct dl as [|l dl']; [discriminate|].
  cbn [List.length Nat.eqb].
  destruct (str_eqb (join NL (l :: dl')) DONE) eqn:E.
  - intros _. apply str_eqb_eq in E. exact E.
  - unfold parseEvent_try.
    destruct (JSON_parse (join NL (l :: dl'))) as [v|e]; cbn [bind]; [|discriminate].
    destruct (isRecord v) as [o|]; [|discriminate].
    destruct (_ || _)%bool.
    + destruct (extractChatSources o) as [srcs|e]; cbn [bind]; [|discriminate].
      destruct (List.length srcs =? 0)%nat; discriminate.
    + destruct (extractChatSources o) as [srcs|e]; cbn [bind]; [|discriminate].
      destruct (_ && _)%bool; discriminate.
Qed.

(** C2. A frame whose data lines joined with a line feed are exactly [DONE]
    ends the sequence: whatever the chunks of the body, such a frame is the
    last one handed to the interpreter, it yields no chunk, and the chunks of
    the stream are those of the frames before it. *)
Theorem done_frame_ends_stream
    (body : list (list byte)) (pre post : list (jsstring * list jsstring))
    (ev : jsstring) (dl : list jsstring) :
  chatStream_frames body = pre ++ (ev, dl) :: post ->
  join NL dl = DONE ->
  parseEvent ev dl = finished /\
  post = [] /\
  chatStream body = flat_map (yields_of parseEvent) pre.
Proof.
  intros E H.
  pose proof (parseEvent_DONE ev dl H) as Hp.
  assert (post = []) as ->.
  { eapply closing_frame_last; [exact E|].
    unfold closes. cbn [fst snd]. rewrite Hp. reflexivity. }
  repeat split; [exact Hp|].
  unfold chatStream. rewrite read_loop_watch.
  unfold chatStream_frames in E. rewrite E, flat_map_app.
  cbn [flat_map]. unfold yields_of at 2. cbn [fst snd].
  rewrite Hp. cbn [chunk finished yield app]. rewrite !app_nil_r. reflexivity.
Qed.


Lemma parseEvent_unfold (ev : jsstring) (dl : list jsstring) :
  dl <> [] ->
  join NL dl <> DONE ->
  parseEvent ev dl =
  match parseEvent_try ev (join NL dl) with
  | Normal r => r
  | Throw _ => nothing
  end.
Proof.
  intros Hne Hd. unfold parseEvent.
  destruct dl as [|l dl']; [contradiction|].
  cbn [List.length Nat.eqb].
  apply str_eqb_neq in Hd. rewrite Hd. reflexivity.
Qed.

Lemma parseEvent_malformed (ev : jsstring) (dl : list jsstring) (e : error) :
  JSON_parse (join NL dl) = Throw e ->
  join NL dl <> DONE ->
  parseEvent ev dl = nothing.
Proof.
  intros Hp Hd. destruct dl as [|l dl'] eqn:E; [reflexivity|].
  rewrite parseEvent_unfold by (congruence || exact Hd).
  unfold parseEvent_try. rewrite Hp. reflexivity.
Qed.

(** C3. A frame whose payload is not [DONE] and does not parse as JSON
    yields nothing and raises nothing, and does not end the stream: the
    lines after its closing blank line are read as if the lines of the
    frame were not there, and the chunks of the stream are those of the
    frames before it followed by those of the frames after it. *)
Theorem malformed_frame_is_skipped
    (ev : jsstring) (dl : list jsstring) (e : error) :
  JSON_parse (join NL dl) = Throw e ->
  join NL dl <> DONE ->
  parseEvent ev dl = nothing /\
  (forall (before frame after : list jsstring) (blank : jsstring)
          (ev0 : jsstring) (dl0 : list jsstring) (ys : list ChatStreamChunk),
      for_lines parseEvent ev0 dl0 before = (ys, Some (lit "message", [])) ->
      for_lines parseEvent (lit "message") [] frame = ([], Some (ev, dl)) ->
      is_empty (trimEnd blank) = true ->
      for_lines parseEvent ev0 dl0 (before ++ frame ++ blank :: after) =
      for_lines parseEvent ev0 dl0 (before ++ after)) /\
  (forall (body : list (list byte)) (pre post : list (jsstring * list jsstring)),
      chatStream_frames body = pre ++ (ev, dl) :: post ->
      chatStream body =
      flat_map (yields_of parseEvent) pre ++ flat_map (yields_of parseEvent) post).
Proof.
  intros Hp Hd.
  pose proof (parseEvent_malformed ev dl Hp Hd) as Hn.
  split; [exact Hn|split].
  - intros before frame after blank ev0 dl0 ys Hb Hf Hblank.
    rewrite (for_lines_app _ ev0 dl0 before (frame ++ blank :: after)).
    rewrite (for_lines_app _ ev0 dl0 before after), Hb.
    rewrite for_lines_app, Hf.
    cbn [for_lines]. rewrite Hblank, Hn. cbn [done nothing chunk yield app].
    destruct (for_lines parseEvent (lit "message") [] after). reflexivity.
  - intros body pre post E.
    unfold chatStream. rewrite read_loop_watch.
    unfold chatStream_frames in E. rewrite E, flat_map_app.
    cbn [flat_map]. unfold yields_of at 2. cbn [fst snd].
    rewrite Hn. reflexivity.
Qed.

(** [extractChatSources] prefers [ragora_stats.sources] when it is an array
    in a record, and reads the top-level [sources] otherwise. *)
Lemma extractChatSources_prefers (payload : object) :
  (forall (stats : object) (l : list value),
      get payload (lit "ragora_stats") = VObj stats ->
      get stats (lit "sources") = VArr l ->
      extractChatSources payload = mapSearchResults (VArr l)) /\
  ((forall stats l, get payload (lit "ragora_stats") = VObj stats ->
                    get stats (lit "sources") <> VArr l) ->
   extractChatSources payload = mapSearchResults (get payload (lit "sources"))).
Proof.
  unfold extractChatSources. split.
  - intros stats l Hs Hl. rewrite Hs. cbn [isRecord]. rewrite Hl. reflexivity.
  - intros H. destruct (get payload (lit "ragora_stats")) as [| | | | | |stats] eqn:Es;
      try reflexivity.
    cbn [isRecord].
    destruct (get stats (lit "sources")) as [| | | | |l|] eqn:El; try reflexivity.
    exfalso. exact (H stats l eq_refl El).
Qed.

(** C4. On a [ragora_metadata] or [ragora_complete] frame whose payload
    parses to a record, the sources are extracted, [ragora_stats.sources]
    first; the frame yields one chunk with the empty content, no finish
    reason and these sources when there is at least one source, and nothing
    when there is none (nor when the extraction raises). *)
Theorem metadata_event_chunk
    (ev : jsstring) (dl : list jsstring) (payload : object) :
  dl <> [] ->
  join NL dl <> DONE ->
  ev = lit "ragora_metadata" \/ ev = lit "ragora_complete" ->
  JSON_parse (join NL dl) = Normal (VObj payload) ->
  (forall stats l,
      get payload (lit "ragora_stats") = VObj stats ->
      get stats (lit "sources") = VArr l ->
      extractChatSources payload = mapSearchResults (VArr l)) /\
  ((forall stats l, get payload (lit "ragora_stats") = VObj stats ->
                    get stats (lit "sources") <> VArr l) ->
   extractChatSources payload = mapSearchResults (get payload (lit "sources"))) /\
  (forall srcs,
      extractChatSources payload = Normal srcs ->
      srcs <> [] ->
      parseEvent ev dl =
      emit {| chunk_content := EMPTY; finishReason := None; sources := srcs |}) /\
  (extractChatSources payload = Normal [] -> parseEvent ev dl = nothing) /\
  (forall e, extractChatSources payload = Throw e -> parseEvent ev dl = nothing).
Proof.
  intros Hne Hd Hev Hp.
  destruct (extractChatSources_prefers payload) as [H1 H2].
  split; [exact H1|]. split; [exact H2|].
  rewrite (parseEvent_unfold ev Hne Hd).
  unfold parseEvent_try. rewrite Hp. cbn [bind isRecord].
  assert ((str_eqb ev (lit "ragora_metadata") ||
           str_eqb ev (lit "ragora_complete"))%bool = true) as ->.
  { destruct Hev as [-> | ->]; reflexivity. }
  repeat split.
  - intros srcs -> Hs. cbn [bind]. destruct srcs; [contradiction|]. reflexivity.
  - intros ->. reflexivity.
  - intros e ->. reflexivity.
Qed.

(** The constants of the default branch, on the first choice of the
    payload. *)
Lemma first_choice_fields (payload c : object) (rest : list value) :
  get payload (lit "choices") = VArr (VObj c :: rest) ->
  finish_reason payload =
    match get c (lit "finish_reason") with VStr s => Some s | _ => None end /\
  delta_content payload =
    match get c (lit "delta") with
    | VObj d => match get d (lit "content") with VStr s => s | _ => EMPTY end
    | _ => EMPTY
    end.
Proof.
  intros H. unfold finish_reason, delta_content, delta, firstChoice.
  rewrite H. cbn [Array_isArray isRecord]. split.
  - destruct (get c (lit "finish_reason")); reflexivity.
  - destruct (get c (lit "delta")) as [| | | | | |d]; try reflexivity.
    cbn [isRecord]. destruct (get d (lit "content")); reflexivity.
Qed.

Lemma no_first_choice_fields (payload : object) :
  (forall c rest, get payload (lit "choices") <> VArr (VObj c :: rest)) ->
  finish_reason payload = None /\ delta_content payload = EMPTY.
Proof.
  intros H. unfold finish_reason, delta_content, delta, firstChoice.
  destruct (get payload (lit "choices")) as [| | | | |l|]; try (split; reflexivity).
  cbn [Array_isArray].
  destruct l as [|v rest]; [split; reflexivity|].
  destruct v; try (split; reflexivity).
  exfalso. eapply H. reflexivity.
Qed.

Lemma quiet_frame_spec (text : jsstring) (reason : option jsstring) (srcs : list SearchResult) :
  (is_empty text && falsy reason && (List.length srcs =? 0)%nat)%bool = true <->
  text = EMPTY /\ (reason = None \/ reason = Some EMPTY) /\ srcs = [].
Proof.
  rewrite !andb_true_iff. split.
  - intros [[E1 E2] E3]. repeat split.
    + destruct text; [reflexivity|discriminate].
    + destruct reason as [[|? ?]|]; try discriminate; auto.
    + destruct srcs; [reflexivity|discriminate].
  - intros (-> & Hf & ->). repeat split.
    destruct Hf as [-> | ->]; reflexivity.
Qed.

(** C5, as the code has it. On a frame of any other event name whose
    payload parses to a record, the content is [choices[0].delta.content]
    (the empty string when it is not a string) and the finish reason is
    [choices[0].finish_reason] (undefined when it is not a string). When
    the extraction of the sources raises, the frame yields nothing. When it
    returns, the frame yields nothing exactly when the content is empty, the
    finish reason is undefined or the empty string, and there is no source;
    otherwise it yields the chunk of these three. So the frame yields no
    chunk exactly in these two cases. *)
Theorem default_event_chunk
    (ev : jsstring) (dl : list jsstring) (payload : object) :
  dl <> [] ->
  join NL dl <> DONE ->
  ev <> lit "ragora_metadata" ->
  ev <> lit "ragora_complete" ->
  JSON_parse (join NL dl) = Normal (VObj payload) ->
  let quiet srcs :=
    delta_content payload = EMPTY /\
    (finish_reason payload = None \/ finish_reason payload = Some EMPTY) /\
    srcs = [] in
  (forall c rest, get payload (lit "choices") = VArr (VObj c :: rest) ->
      finish_reason payload =
        match get c (lit "finish_reason") with VStr s => Some s | _ => None end /\
      delta_content payload =
        match get c (lit "delta") with
        | VObj d => match get d (lit "content") with VStr s => s | _ => EMPTY end
        | _ => EMPTY
        end) /\
  ((forall c rest, get payload (lit "choices") <> VArr (VObj c :: rest)) ->
      finish_reason payload = None /\ delta_content payload = EMPTY) /\
  (forall srcs, extractChatSources payload = Normal srcs ->
      (quiet srcs <-> chunk (parseEvent ev dl) = None) /\
      (quiet srcs -> parseEvent ev dl = nothing) /\
      (~ quiet srcs ->
       parseEvent ev dl =
       emit {| chunk_content := delta_content payload;
               finishReason := finish_reason payload;
               sources := srcs |})) /\
  (forall e, extractChatSources payload = Throw e -> parseEvent ev dl = nothing) /\
  (chunk (parseEvent ev dl) = None <->
   (exists e, extractChatSources payload = Throw e) \/
   (exists srcs, extractChatSources payload = Normal srcs /\ quiet srcs)) /\
  parseEvent ev dl =
    match extractChatSources payload with
    | Throw _ => nothing
    | Normal srcs =>
        if (is_empty (delta_content payload) && falsy (finish_reason payload) &&
            (List.length srcs =? 0)%nat)%bool
        then nothing
        else emit {| chunk_content := delta_content payload;
                     finishReason := finish_reason payload;
                     sources := srcs |}
    end.
Proof.
  intros Hne Hd Hm Hc Hp quiet.
  split; [intros c rest; apply first_choice_fields|].
  split; [apply no_first_choice_fields|].
  rewrite (parseEvent_unfold ev Hne Hd).
  unfold parseEvent_try. rewrite Hp. cbn [bind isRecord].
  apply str_eqb_neq in Hm, Hc. rewrite Hm, Hc. cbn [orb].
  subst quiet. cbv beta.
  destruct (extractChatSources payload) as [found|x]; cbn [bind].
  - pose proof (quiet_frame_spec (delta_content payload) (finish_reason payload) found)
      as Hq.
    destruct (is_empty (delta_content payload) && falsy (finish_reason payload) &&
              (List.length found =? 0)%nat)%bool.
    + assert (delta_content payload = EMPTY /\
              (finish_reason payload = None \/ finish_reason payload = Some EMPTY) /\
              found = []) as Hyes by (apply Hq; reflexivity).
      split; [|split; [|split]].
      * intros srcs E. injection E as <-.
        split; [split; intros; [reflexivity|exact Hyes]|].
        split; [intros; reflexivity|intros Hn; contradiction].
      * intros e E. discriminate E.
      * split; [intros _|intros _; reflexivity].
        right. exists found. split; [reflexivity|exact Hyes].
      * reflexivity.
    + assert (~ (delta_content payload = EMPTY /\
                 (finish_reason payload = None \/ finish_reason payload = Some EMPTY) /\
                 found = [])) as Hno by (intros H; apply Hq in H; discriminate).
      split; [|split; [|split]].
      * intros srcs E. injection E as <-.
        split; [split; [intros H; contradiction|intros H; discriminate H]|].
        split; [intros H; contradiction|intros; reflexivity].
      * intros e E. discriminate E.
      * split; [intros H; discriminate H|].
        intros [[e E]|[srcs [E H]]]; [discriminate E|].
        injection E as <-. contradiction.
      * reflexivity.
  - split; [|split; [|split]].
    + intros srcs E. discriminate E.
    + intros e _. reflexivity.
    + split; [intros _|intros _; reflexivity].
      left. exists x. reflexivity.
    + reflexivity.
Qed.

(** C8. When the reader reports [done] and no [return] happened, what is
    left in the buffer is read as one closing line, by the rules of the
    loop for a line that is not blank, onto the event name and the data
    lines the frame has so far; the frame is interpreted and its chunk, if
    any, is the last one of the stream. *)
Theorem trailing_frame_is_flushed
    (body : list (list byte)) (ys : list ChatStreamChunk) (st : stream_state) :
  drain parseEvent initial_state body = (ys, Some st) ->
  exists ev dl,
    (if is_empty (trimEnd (buffer st))
     then (ev, dl) = (eventName st, dataLines st)
     else for_lines parseEvent (eventName st) (dataLines st) [buffer st] =
          ([], Some (ev, dl))) /\
    chatStream body = ys ++ yield (chunk (parseEvent ev dl)).
Proof.
  intros H.
  destruct (on_done_closing_line parseEvent st) as (ev & dl & Hl & Hd).
  exists ev, dl. split; [exact Hl|].
  unfold chatStream. rewrite read_loop_drain, H, Hd. reflexivity.
Qed.

(** ** The coercion of a source *)

Lemma parsedScore_coalesce (scoreRaw : value) :
  match scoreRaw with
  | VNum n => Normal n
  | _ => ToNumber (coalesce scoreRaw (VNum num_zero))
  end = ToNumber (coalesce scoreRaw (VNum num_zero)).
Proof. destruct scoreRaw; reflexivity. Qed.

Lemma toSearchResult_normal (raw : object) (n : number) (s : jsstring) :
  ToNumber (coalesce (get raw (lit "score")) (VNum num_zero)) = Normal n ->
  ToString (coalesce (coalesce (get raw (lit "id")) (get raw (lit "chunk_id")))
                     (VStr (EMPTY))) = Normal s ->
  toSearchResult raw =
  Normal {|
    id := s;
    content :=
      match get raw (lit "text") with
      | VStr text => text
      | _ => match get raw (lit "content") with VStr c => c | _ => EMPTY end
      end;
    score := if Number_isFinite n then n else num_zero;
    metadata := match get raw (lit "metadata") with VObj m => m | _ => [] end;
    documentId := typeof_string (get raw (lit "document_id"));
    collectionId := typeof_string (get raw (lit "collection_id"))
  |}.
Proof.
  intros Hn Hs. unfold toSearchResult.
  rewrite parsedScore_coalesce, Hn. cbn [bind]. rewrite Hs. cbn [bind].
  f_equal. f_equal.
  - destruct (get raw (lit "text")); try reflexivity;
      destruct (get raw (lit "content")); reflexivity.
  - destruct (get raw (lit "metadata")); reflexivity.
Qed.

Lemma mapSearchResults_loop_skips (l1 l2 : list value) (v : value) :
  isRecord v = None ->
  mapSearchResults_loop (l1 ++ v :: l2) = mapSearchResults_loop (l1 ++ l2).
Proof.
  intros H. induction l1 as [|x l1 IH]; cbn [app mapSearchResults_loop].
  - rewrite H. reflexivity.
  - rewrite IH. reflexivity.
Qed.

(** C6, as the code has it. For a record whose score and id convert without
    raising, the coercion produces a source whose score is a finite number
    (0 when the score field is null or undefined, or converts to a number
    that is not finite), whose content is the [text] field when it is a
    string, else the [content] field when it is a string, else the empty
    string, whose id is a string, and whose metadata is the [metadata] field
    when it is a record and the empty record otherwise; and the coercion of
    a list passes over the entries that are not records. *)
Theorem toSearchResult_coerces (raw : object) (n : number) (s : jsstring) :
  ToNumber (coalesce (get raw (lit "score")) (VNum num_zero)) = Normal n ->
  ToString (coalesce (coalesce (get raw (lit "id")) (get raw (lit "chunk_id")))
                     (VStr (EMPTY))) = Normal s ->
  exists r,
    toSearchResult raw = Normal r /\
    Number_isFinite (score r) = true /\
    (Number_isFinite n = true -> score r = n) /\
    (Number_isFinite n = false -> score r = num_zero) /\
    (nullish (get raw (lit "score")) = true -> score r = num_zero) /\
    (forall text, get raw (lit "text") = VStr text -> content r = text) /\
    (forall c, typeof_string (get raw (lit "text")) = None ->
               get raw (lit "content") = VStr c -> content r = c) /\
    (typeof_string (get raw (lit "text")) = None ->
     typeof_string (get raw (lit "content")) = None -> content r = EMPTY) /\
    id r = s /\
    (forall m, get raw (lit "metadata") = VObj m -> metadata r = m) /\
    (isRecord (get raw (lit "metadata")) = None -> metadata r = []) /\
    (forall l1 l2 v, isRecord v = None ->
        mapSearchResults (VArr (l1 ++ v :: l2)) = mapSearchResults (VArr (l1 ++ l2))) /\
    (forall v, Array_isArray v = None -> mapSearchResults v = Normal []).
Proof.
  intros Hn Hs. eexists. split; [apply (toSearchResult_normal raw Hn Hs)|].
  cbn [score content id metadata].
  repeat split.
  - destruct (Number_isFinite n) eqn:E; [exact E|reflexivity].
  - intros ->. reflexivity.
  - intros ->. reflexivity.
  - intros Hz. destruct (get raw (lit "score")); try discriminate Hz;
      cbn in Hn; injection Hn as <-; reflexivity.
  - intros text ->. reflexivity.
  - intros c Ht ->. destruct (get raw (lit "text")); try reflexivity. discriminate Ht.
  - intros Ht Hc. destruct (get raw (lit "text")); try discriminate Ht;
      destruct (get raw (lit "content")); try discriminate Hc; reflexivity.
  - intros m ->. reflexivity.
  - intros Hm. destruct (get raw (lit "metadata")); try reflexivity. discriminate Hm.
  - intros l1 l2 v Hv. cbn [mapSearchResults Array_isArray].
    apply mapSearchResults_loop_skips. exact Hv.
  - intros v Hv. unfold mapSearchResults. rewrite Hv. reflexivity.
Qed.

(** C10. When the [id] field is null or undefined and the [chunk_id] field
    is not, the id of the source is the string of [chunk_id]; the id is the
    empty string by default when both are null or undefined, and only then:
    an [id] field that is neither gives its own string. *)
Theorem id_falls_back_to_chunk_id (raw : object) (n : number) (s : jsstring) :
  ToNumber (coalesce (get raw (lit "score")) (VNum num_zero)) = Normal n ->
  (nullish (get raw (lit "id")) = true ->
   nullish (get raw (lit "chunk_id")) = false ->
   ToString (get raw (lit "chunk_id")) = Normal s ->
   exists r, toSearchResult raw = Normal r /\ id r = s) /\
  (nullish (get raw (lit "id")) = true ->
   nullish (get raw (lit "chunk_id")) = true ->
   exists r, toSearchResult raw = Normal r /\ id r = EMPTY) /\
  (nullish (get raw (lit "id")) = false ->
   ToString (get raw (lit "id")) = Normal s ->
   exists r, toSearchResult raw = Normal r /\ id r = s).
Proof.
  intros Hn. repeat split.
  - intros Hi Hc Hs. eexists. split.
    + apply (toSearchResult_normal raw Hn (s := s)).
      unfold coalesce. rewrite Hi, Hc. exact Hs.
    + reflexivity.
  - intros Hi Hc. eexists. split.
    + apply (toSearchResult_normal raw Hn (s := EMPTY)).
      unfold coalesce. rewrite Hi, Hc. reflexivity.
    + reflexivity.
  - intros Hi Hs. eexists. split.
    + apply (toSearchResult_normal raw Hn (s := s)).
      unfold coalesce. rewrite Hi, Hi. exact Hs.
    + reflexivity.
Qed.

End ClientFacts.

(** ** The lines of the framer *)


(** ** The request timer *)

Module LivenessFacts.
Import Liveness.

(** The timer of [chatStream] is a wall-clock bound on the whole call. *)
Lemma chatStream_timing_wall_clock (timeout : N) (arrivals : list N) :
  chatStream_timing timeout arrivals = Completed <->
  Forall (fun t => t < timeout) arrivals.
Proof.
  unfold chatStream_timing, setTimeout. rewrite N.add_0_l.
  induction arrivals as [|t more IH]; cbn [await_all].
  - split; [constructor|reflexivity].
  - destruct (N.leb timeout t) eqn:E.
    + split; [discriminate|]. intros H. inversion H; subst.
      apply N.leb_le in E. lia.
    + apply N.leb_gt in E. rewrite IH. split.
      * intros H. constructor; assumption.
      * intros H. inversion H; assumption.
Qed.

(** A timer armed again by each arrival lets every active stream finish. *)
Lemma changelog_timing_active (timeout : N) (arrivals : list N) :
  active timeout arrivals = true -> changelog_timing timeout arrivals = Completed.
Proof.
  unfold active, changelog_timing. generalize 0 as last.
  induction arrivals as [|t more IH]; intros last; cbn [active_from await_all_resetting].
  - reflexivity.
  - intros H. apply andb_true_iff in H as [H H3].
    apply andb_true_iff in H as [H1 H2].
    apply N.ltb_lt in H2. unfold setTimeout at 1.
    destruct (N.leb (last + timeout) t) eqn:E.
    + apply N.leb_le in E. lia.
    + apply IH. exact H3.
Qed.

(** C9. With the default timeout of 30 s, a body whose chunks arrive 20 s
    apart is active, and the timer armed before the request aborts it all
    the same; the timer of the changelog, armed again by each chunk, does
    not. *)
Theorem fixed_deadline_aborts_active_stream :
  active 30000 [100; 20000; 40000; 40100] = true /\
  chatStream_timing 30000 [100; 20000; 40000; 40100] = Aborted /\
  changelog_timing 30000 [100; 20000; 40000; 40100] = Completed.
Proof. repeat split. Qed.

End LivenessFacts.

(** ** The properties on the sample streams *)

Module SampleFacts.
Import Samples.

#[local] Existing Instance Reference.platform.

Example metadata_frame_yields_sources :
  chatStream [bytes ("event: ragora_metadata" ++ nl ++
                     "data: " ++ with_sources ++ nl ++ nl)]
  = [{| chunk_content := EMPTY; finishReason := None; sources := [source_a] |}].
Proof. vm_compute. reflexivity. Qed.

Example content_frame_yields_content :
  chatStream [bytes ("data: " ++ hi ++ nl ++ nl)] = [hi_chunk].
Proof. vm_compute. reflexivity. Qed.

Example keep_alive_frame_yields_nothing :
  chatStream [bytes ("data: " ++ keep_alive ++ nl ++ nl)] = [].
Proof. vm_compute. reflexivity. Qed.

Example cut_inside_characters_decodes :
  chatStream cut_inside_characters =
  [{| chunk_content := [0xE9; 0xD83D; 0xDE00]; finishReason := None; sources := [] |}].
Proof. vm_compute. reflexivity. Qed.

Example empty_finish_parses :
  JSON_parse (lit empty_finish) =
  Normal (VObj [(lit "choices", VArr [VObj [(lit "finish_reason", VStr EMPTY)]])]) /\
  empty_finish_record =
  [(lit "choices", VArr [VObj [(lit "finish_reason", VStr EMPTY)]])].
Proof. split; vm_compute; reflexivity. Qed.

Example hi_parses :
  JSON_parse (lit hi) =
  Normal (VObj [(lit "choices",
                 VArr [VObj [(lit "delta", VObj [(lit "content", VStr (lit "Hi"))])]])]) /\
  hi_record =
  [(lit "choices", VArr [VObj [(lit "delta", VObj [(lit "content", VStr (lit "Hi"))])]])].
Proof. split; vm_compute; reflexivity. Qed.

Example empty_finish_frame_yields_nothing :
  chatStream [bytes ("data: " ++ empty_finish ++ nl ++ nl)] = [] /\
  finish_reason empty_finish_record = Some EMPTY.
Proof. split; vm_compute; reflexivity. Qed.

Example blank_line_may_hold_spaces :
  chatStream [bytes ("data: " ++ hi ++ " " ++ nl ++ "  " ++ nl)] = [hi_chunk].
Proof. vm_compute. reflexivity. Qed.

(** The error of a source that cannot be converted is caught with the
    frame: the content of the frame is lost, the stream goes on. *)
Example bad_source_frame_yields_nothing :
  chatStream [bytes ("data: " ++ hi_with_bad_source ++ nl ++ nl ++
                     "data: " ++ hi ++ nl ++ nl)] = [hi_chunk].
Proof. vm_compute. reflexivity. Qed.

Example own_toString_raises :
  toSearchResult [(lit "id", VObj [(lit "toString", VNum num_zero)])] = Throw TypeError.
Proof. reflexivity. Qed.

(** A frame that ends the stream, on [done_then_more]. *)
Lemma done_frame_ends_stream_witness :
  chatStream_frames done_then_more =
    [(lit "message", [lit hi])] ++ (lit "message", [DONE]) :: [] /\
  join NL [DONE] = DONE /\
  parseEvent (lit "message") [DONE] = finished /\
  chatStream done_then_more = [hi_chunk].
Proof.
  assert (chatStream_frames done_then_more =
          [(lit "message", [lit hi])] ++ (lit "message", [DONE]) :: []) as h1
    by (vm_compute; reflexivity).
  assert (join NL [DONE] = DONE) as h2 by reflexivity.
  split; [exact h1|]. split; [exact h2|].
  destruct (done_frame_ends_stream done_then_more _ _ _ _ h1 h2) as (Hp & _ & Hc).
  split; [exact Hp|]. rewrite Hc. vm_compute. reflexivity.
Defined.

(** A payload that is not JSON, between two content frames. *)
Lemma malformed_frame_is_skipped_witness :
  JSON_parse (join NL [lit "not json"]) = Throw SyntaxError /\
  join NL [lit "not json"] <> DONE /\
  parseEvent (lit "message") [lit "not json"] = nothing /\
  for_lines parseEvent (lit "message") []
    ([lit ("data: " ++ hi); EMPTY] ++ [lit "data: not json"] ++
     EMPTY :: [lit ("data: " ++ late); EMPTY]) =
  for_lines parseEvent (lit "message") []
    ([lit ("data: " ++ hi); EMPTY] ++ [lit ("data: " ++ late); EMPTY]).
Proof.
  assert (JSON_parse (join NL [lit "not json"]) = Throw SyntaxError) as h1
    by (vm_compute; reflexivity).
  assert (join NL [lit "not json"] <> DONE) as h2 by discriminate.
  split; [exact h1|]. split; [exact h2|].
  destruct (malformed_frame_is_skipped (lit "message") [lit "not json"] h1 h2)
    as (Hn & Hl & _).
  split; [exact Hn|].
  apply (Hl _ _ _ _ _ _ [hi_chunk]); vm_compute; reflexivity.
Defined.

(** The metadata frame of the design document. *)
Lemma metadata_event_chunk_witness :
  [lit with_sources] <> [] /\
  join NL [lit with_sources] <> DONE /\
  (lit "ragora_metadata" = lit "ragora_metadata" \/
   lit "ragora_metadata" = lit "ragora_complete") /\
  JSON_parse (join NL [lit with_sources]) = Normal (VObj with_sources_record) /\
  extractChatSources with_sources_record = Normal [source_a] /\
  parseEvent (lit "ragora_metadata") [lit with_sources] =
  emit {| chunk_content := EMPTY; finishReason := None; sources := [source_a] |}.
Proof.
  assert ([lit with_sources] <> []) as h1 by discriminate.
  assert (join NL [lit with_sources] <> DONE) as h2 by discriminate.
  assert (lit "ragora_metadata" = lit "ragora_metadata" \/
          lit "ragora_metadata" = lit "ragora_complete") as h3
    by (left; reflexivity).
  assert (JSON_parse (join NL [lit with_sources]) = Normal (VObj with_sources_record))
    as h4 by (vm_compute; reflexivity).
  assert (extractChatSources with_sources_record = Normal [source_a]) as h5
    by (vm_compute; reflexivity).
  repeat (split; [assumption|]).
  destruct (metadata_event_chunk h1 h2 h3 h4) as (_ & _ & He & _).
  apply (He _ h5). discriminate.
Defined.

(** C5 as the design document states it fails on a first choice whose
    finish reason is the empty string: the finish reason is not absent, and
    the frame yields nothing. *)
Lemma empty_finish_reason_is_suppressed :
  ~ (forall (ev : jsstring) (dl : list jsstring) (payload : object)
            (srcs : list SearchResult),
        dl <> [] ->
        join NL dl <> DONE ->
        ev <> lit "ragora_metadata" ->
        ev <> lit "ragora_complete" ->
        JSON_parse (join NL dl) = Normal (VObj payload) ->
        extractChatSources payload = Normal srcs ->
        (chunk (parseEvent ev dl) = None <->
         delta_content payload = EMPTY /\ finish_reason payload = None /\ srcs = [])).
Proof.
  intros H.
  specialize (H (lit "message") [lit empty_finish] empty_finish_record []).
  destruct H as [H _]; try discriminate; try (vm_compute; reflexivity).
  destruct H as (_ & Hf & _); [vm_compute; reflexivity|].
  vm_compute in Hf. discriminate Hf.
Qed.

(** A content frame, by the rules of the default branch. *)
Lemma default_event_chunk_witness :
  [lit hi] <> [] /\
  join NL [lit hi] <> DONE /\
  lit "message" <> lit "ragora_metadata" /\
  lit "message" <> lit "ragora_complete" /\
  JSON_parse (join NL [lit hi]) = Normal (VObj hi_record) /\
  extractChatSources hi_record = Normal [] /\
  parseEvent (lit "message") [lit hi] = emit hi_chunk.
Proof.
  assert ([lit hi] <> []) as h1 by discriminate.
  assert (join NL [lit hi] <> DONE) as h2 by discriminate.
  assert (lit "message" <> lit "ragora_metadata") as h3 by discriminate.
  assert (lit "message" <> lit "ragora_complete") as h4 by discriminate.
  assert (JSON_parse (join NL [lit hi]) = Normal (VObj hi_record)) as h5
    by (vm_compute; reflexivity).
  assert (extractChatSources hi_record = Normal []) as h6
    by (vm_compute; reflexivity).
  repeat (split; [assumption|]).
  destruct (default_event_chunk h1 h2 h3 h4 h5) as (_ & _ & He & _).
  destruct (He _ h6) as (_ & _ & He').
  rewrite He'; [vm_compute; reflexivity|].
  intros (Hc & _). vm_compute in Hc. discriminate Hc.
Defined.

(** C6 as the design document states it fails on a record that has a [text]
    and no [content]: the content of the source is the text. *)
Lemma text_field_is_the_content :
  ~ (forall (raw : object) (r : SearchResult),
        toSearchResult raw = Normal r ->
        typeof_string (get raw (lit "content")) = None ->
        content r = EMPTY).
Proof.
  intros H.
  specialize (H text_only
                {| id := EMPTY; content := lit "hello"; score := num_zero;
                   metadata := []; documentId := None; collectionId := None |}
                eq_refl eq_refl).
  discriminate H.
Qed.

Lemma toSearchResult_coerces_witness :
  ToNumber (coalesce (get chunk_id_only (lit "score")) (VNum num_zero)) =
    Normal (S754_finite false 4503599627370496 (-53)) /\
  ToString (coalesce (coalesce (get chunk_id_only (lit "id"))
                               (get chunk_id_only (lit "chunk_id")))
                     (VStr EMPTY)) = Normal (lit "1") /\
  exists r, toSearchResult chunk_id_only = Normal r /\
            Number_isFinite (score r) = true /\ id r = lit "1".
Proof.
  assert (ToNumber (coalesce (get chunk_id_only (lit "score")) (VNum num_zero)) =
          Normal (S754_finite false 4503599627370496 (-53))) as h1
    by (vm_compute; reflexivity).
  assert (ToString (coalesce (coalesce (get chunk_id_only (lit "id"))
                                       (get chunk_id_only (lit "chunk_id")))
                             (VStr EMPTY)) = Normal (lit "1")) as h2
    by (vm_compute; reflexivity).
  split; [exact h1|]. split; [exact h2|].
  destruct (toSearchResult_coerces chunk_id_only h1 h2)
    as (r & Hr & Hfin & _ & _ & _ & _ & _ & _ & Hid & _).
  exists r. repeat split; assumption.
Defined.

Lemma id_falls_back_to_chunk_id_witness :
  ToNumber (coalesce (get chunk_id_only (lit "score")) (VNum num_zero)) =
    Normal (S754_finite false 4503599627370496 (-53)) /\
  nullish (get chunk_id_only (lit "id")) = true /\
  nullish (get chunk_id_only (lit "chunk_id")) = false /\
  ToString (get chunk_id_only (lit "chunk_id")) = Normal (lit "1") /\
  exists r, toSearchResult chunk_id_only = Normal r /\ id r = lit "1".
Proof.
  assert (ToNumber (coalesce (get chunk_id_only (lit "score")) (VNum num_zero)) =
          Normal (S754_finite false 4503599627370496 (-53))) as h1
    by (vm_compute; reflexivity).
  assert (nullish (get chunk_id_only (lit "id")) = true) as h2 by reflexivity.
  assert (nullish (get chunk_id_only (lit "chunk_id")) = false) as h3 by reflexivity.
  assert (ToString (get chunk_id_only (lit "chunk_id")) = Normal (lit "1")) as h4
    by (vm_compute; reflexivity).
  repeat (split; [assumption|]).
  exact (proj1 (id_falls_back_to_chunk_id chunk_id_only (lit "1") h1) h2 h3 h4).
Defined.


(** The last frame of [unterminated] has no blank line after it. *)
Lemma trailing_frame_is_flushed_witness :
  drain parseEvent initial_state unterminated = ([], Some unterminated_state) /\
  chatStream unterminated = [hi_chunk].
Proof.
  assert (drain parseEvent initial_state unterminated = ([], Some unterminated_state))
    as h1 by (vm_compute; reflexivity).
  split; [exact h1|].
  destruct (trailing_frame_is_flushed unterminated h1) as (ev & dl & Hl & Hc).
  rewrite Hc. vm_compute in Hl. injection Hl as <- <-. vm_compute. reflexivity.
Defined.

End SampleFacts.

(** * Properties of the rest of the client *)

(** ** Invariants of the stream *)

Section StreamInvariants.

Context {P : Platform}.

(** What holds of every chunk an interpreter can produce holds of every
    chunk the loop yields. *)
Lemma read_loop_Forall {A} (interpret : jsstring -> list jsstring -> ParsedEvent A)
      (Q : A -> Prop) (st : stream_state) (chunks : list (list byte)) :
  (forall ev dl c, chunk (interpret ev dl) = Some c -> Q c) ->
  Forall Q (read_loop interpret st chunks).
Proof.
  intros H. rewrite read_loop_watch.
  induction (read_loop (watch interpret) st chunks) as [|f fs IH]; cbn [flat_map].
  - constructor.
  - apply Forall_app. split; [|exact IH].
    unfold yields_of. destruct (chunk (interpret (fst f) (snd f))) as [c|] eqn:E.
    + constructor; [|constructor]. exact (H _ _ _ E).
    + constructor.
Qed.

Lemma parseEvent_cases (ev : jsstring) (dl : list jsstring) (c : ChatStreamChunk) :
  chunk (parseEvent ev dl) = Some c ->
  exists payload srcs,
    JSON_parse (join NL dl) = Normal (VObj payload) /\
    extractChatSources payload = Normal srcs /\
    sources c = srcs /\
    (srcs <> [] \/
     (chunk_content c = delta_content payload /\
      finishReason c = finish_reason payload /\
      (is_empty (delta_content payload) && falsy (finish_reason payload))%bool = false)).
Proof.
  unfold parseEvent. destruct dl as [|l dl']; [discriminate|].
  cbn [List.length Nat.eqb].
  destruct (str_eqb (join NL (l :: dl')) DONE); [discriminate|].
  unfold parseEvent_try.
  destruct (JSON_parse (join NL (l :: dl'))) as [v|e] eqn:Ep; cbn [bind]; [|discriminate].
  destruct v as [| | | | | |payload]; cbn [isRecord]; try discriminate.
  destruct (extractChatSources payload) as [srcs|e] eqn:Ex; cbn [bind].
  2:{ destruct (_ || _)%bool; discriminate. }
  destruct (_ || _)%bool.
  - destruct srcs as [|s srcs]; cbn [List.length Nat.eqb]; [discriminate|].
    intros H. injection H as <-. exists payload, (s :: srcs).
    split; [reflexivity|]. split; [exact Ex|]. split; [reflexivity|].
    left. discriminate.
  - destruct (is_empty (delta_content payload) && falsy (finish_reason payload)) eqn:Eq.
    + destruct srcs as [|s srcs]; cbn [List.length Nat.eqb andb]; [discriminate|].
      intros H. injection H as <-. exists payload, (s :: srcs).
      split; [reflexivity|]. split; [exact Ex|]. split; [reflexivity|].
      left. discriminate.
    + cbn [andb]. intros H. injection H as <-. exists payload, srcs.
      split; [reflexivity|]. split; [exact Ex|]. split; [reflexivity|].
      right. repeat split. exact Eq.
Qed.

(** X1. [chatStream] never yields an empty chunk: every chunk has a content
    that is not empty, a finish reason that is not empty, or a source. *)
Theorem chatStream_chunks_informative (body : list (list byte)) :
  Forall informative (chatStream body).
Proof.
  apply read_loop_Forall. intros ev dl c H.
  destruct (parseEvent_cases ev dl H) as (payload & srcs & _ & _ & Hs & [Hne|(Hc & Hf & Hq)]).
  - right. right. rewrite Hs. exact Hne.
  - rewrite <- Hc, <- Hf in Hq.
    destruct (chunk_content c) as [|x t] eqn:Ec.
    + right. left. cbn [is_empty andb] in Hq.
      destruct (finishReason c) as [[|y u]|]; try discriminate Hq.
      exists (y :: u). split; [reflexivity|discriminate].
    + left. rewrite Ec. discriminate.
Qed.

Lemma toSearchResult_finite (raw : object) (r : SearchResult) :
  toSearchResult raw = Normal r -> Number_isFinite (score r) = true.
Proof.
  unfold toSearchResult. rewrite parsedScore_coalesce.
  destruct (ToNumber _) as [n|e]; cbn [bind]; [|discriminate].
  destruct (ToString _) as [s|e]; cbn [bind]; [|discriminate].
  intros H. injection H as <-. cbn [score].
  destruct (Number_isFinite n) eqn:E; [exact E|reflexivity].
Qed.

Lemma mapSearchResults_loop_finite (l : list value) (rs : list SearchResult) :
  mapSearchResults_loop l = Normal rs ->
  Forall (fun r => Number_isFinite (score r) = true) rs.
Proof.
  revert rs; induction l as [|v l IH]; intros rs; cbn [mapSearchResults_loop].
  - intros H. injection H as <-. constructor.
  - destruct (isRecord v) as [o|]; [|apply IH].
    destruct (toSearchResult o) as [x|e] eqn:Ex; cbn [bind]; [|discriminate].
    destruct (mapSearchResults_loop l) as [xs|e]; cbn [bind]; [|discriminate].
    intros H. injection H as <-. constructor.
    + exact (toSearchResult_finite o Ex).
    + apply IH. reflexivity.
Qed.

Lemma mapSearchResults_finite (v : value) (rs : list SearchResult) :
  mapSearchResults v = Normal rs ->
  Forall (fun r => Number_isFinite (score r) = true) rs.
Proof.
  unfold mapSearchResults. destruct (Array_isArray v) as [l|].
  - apply mapSearchResults_loop_finite.
  - intros H. injection H as <-. constructor.
Qed.

Lemma extractChatSources_finite (payload : object) (rs : list SearchResult) :
  extractChatSources payload = Normal rs ->
  Forall (fun r => Number_isFinite (score r) = true) rs.
Proof.
  unfold extractChatSources.
  destruct (isRecord _) as [stats|]; [|apply mapSearchResults_finite].
  destruct (Array_isArray _); apply mapSearchResults_finite.
Qed.

(** X2. Every source of every chunk [chatStream] yields has a finite
    score: no [NaN] and no infinity reaches the consumer. *)
Theorem chatStream_scores_finite (body : list (list byte)) :
  Forall (fun c => Forall (fun r => Number_isFinite (score r) = true) (sources c))
         (chatStream body).
Proof.
  apply read_loop_Forall. intros ev dl c H.
  destruct (parseEvent_cases ev dl H) as (payload & srcs & _ & Hx & -> & _).
  exact (extractChatSources_finite payload Hx).
Qed.

(** X3. The interpreter ends the stream on the sentinel and on nothing
    else: [done] is set exactly when the data lines joined with a line feed
    are [DONE], and no chunk comes with it. *)
Theorem parseEvent_done_only_on_sentinel (ev : jsstring) (dl : list jsstring) :
  (done (parseEvent ev dl) = true <-> join NL dl = DONE) /\
  (done (parseEvent ev dl) = true -> chunk (parseEvent ev dl) = None).
Proof.
  split; [apply parseEvent_done_iff|].
  intros H. apply parseEvent_done_iff in H.
  rewrite (parseEvent_DONE ev dl H). reflexivity.
Qed.

End StreamInvariants.

Section FramerInvariants.

Variable A : Type.
Variable interpret : jsstring -> list jsstring -> ParsedEvent A.

Lemma for_lines_trimEnd_ext (ev : jsstring) (dl l1 l2 : list jsstring) :
  map trimEnd l1 = map trimEnd l2 ->
  for_lines interpret ev dl l1 = for_lines interpret ev dl l2.
Proof.
  revert ev dl l2; induction l1 as [|a l1 IH]; intros ev dl [|b l2]; cbn [map];
    try discriminate; [reflexivity|].
  intros H. injection H as Hab Hl. cbn [for_lines]. rewrite Hab.
  destruct (is_empty (trimEnd b)).
  - destruct (done (interpret ev dl)); [reflexivity|].
    rewrite (IH _ _ l2 Hl). reflexivity.
  - destruct (startsWith (trimEnd b) (lit "event:")); [apply IH; exact Hl|].
    destruct (startsWith (trimEnd b) (lit "data:")); apply IH; exact Hl.
Qed.

(** X4. Lines that end with a carriage return (CRLF line endings) are read
    as the same lines without it; more generally, white space at the end of
    the lines never changes what the loop does. *)
Theorem CRLF_lines_read_as_LF_lines (ev : jsstring) (dl lines : list jsstring) :
  for_lines interpret ev dl (map (fun l => l ++ [CR]) lines) =
  for_lines interpret ev dl lines /\
  (forall ws, forallb is_whitespace ws = true ->
      for_lines interpret ev dl (map (fun l => l ++ ws) lines) =
      for_lines interpret ev dl lines).
Proof.
  assert (forall ws, forallb is_whitespace ws = true ->
            for_lines interpret ev dl (map (fun l => l ++ ws) lines) =
            for_lines interpret ev dl lines) as H.
  { intros ws Hws. apply for_lines_trimEnd_ext. rewrite map_map.
    apply map_ext. intros l. apply trimEnd_app_whitespace. exact Hws. }
  split; [apply H; reflexivity|exact H].
Qed.

Lemma drain_merge (st : stream_state) (a b : list byte) (more : list (list byte)) :
  drain interpret st (a :: b :: more) = drain interpret st ((a ++ b) :: more).
Proof.
  cbn [drain]. unfold on_chunk, pop.
  rewrite decode_app.
  destruct (decode (decoder st) a) as [t1 s1].
  destruct (decode t1 b) as [t2 s2] eqn:E2.
  rewrite (app_assoc (buffer st) s1 s2), (split_app (buffer st ++ s1) s2).
  set (x := buffer st ++ s1).
  pose proof (split_not_nil (last (split x) [] ++ s2)) as Hne.
  rewrite removelast_app_not_nil, last_app_not_nil by exact Hne.
  rewrite for_lines_app.
  change EMPTY with (@nil code_unit).
  destruct (for_lines interpret (eventName st) (dataLines st) (removelast (split x)))
    as [ys [[ev' dl']|]]; [|reflexivity].
  cbn [buffer decoder eventName dataLines]. rewrite E2.
  destruct (for_lines interpret ev' dl' (removelast (split (last (split x) [] ++ s2))))
    as [ys' [[ev'' dl'']|]].
  - destruct (drain interpret _ more) as [ys'' r]. rewrite app_assoc. reflexivity.
  - reflexivity.
Qed.

Lemma drain_empty_chunk (st : stream_state) :
  no_LF (buffer st) -> drain interpret st [[]] = ([], Some st).
Proof.
  intros H. cbn [drain]. unfold on_chunk, pop.
  rewrite decode_nil, app_nil_r, H. cbn [removelast last for_lines].
  destruct st; reflexivity.
Qed.

Lemma drain_concat (st : stream_state) (chunks : list (list byte)) :
  no_LF (buffer st) ->
  drain interpret st chunks = drain interpret st [List.concat chunks].
Proof.
  revert st; induction chunks as [|a more IH]; intros st H.
  - symmetry. apply drain_empty_chunk. exact H.
  - cbn [List.concat]. rewrite <- drain_merge.
    cbn [drain].
    destruct (on_chunk interpret st a) as [ys [st'|]] eqn:E; [|reflexivity].
    rewrite (IH st') by (eapply on_chunk_no_LF; exact E).
    reflexivity.
Qed.

(** X5. The state the loop is in after any body it read to the end is a
    function of the decoded text alone: the buffer is the unfinished last
    line (it never holds a line feed), and the values yielded and the frame
    under construction are those of the complete lines, in one pass. *)
Theorem loop_state_of_text
    (body : list (list byte)) (ys : list A) (st : stream_state) :
  drain interpret initial_state body = (ys, Some st) ->
  buffer st = last (split (decoded_text body)) EMPTY /\
  no_LF (buffer st) /\
  decoder st = fst (decode new_TextDecoder (List.concat body)) /\
  for_lines interpret (lit "message") [] (removelast (split (decoded_text body))) =
    (ys, Some (eventName st, dataLines st)).
Proof.
  rewrite drain_concat by reflexivity.
  cbn [drain]. unfold on_chunk, pop, decoded_text.
  cbn [initial_state decoder buffer eventName dataLines].
  destruct (decode new_TextDecoder (List.concat body)) as [t text].
  cbn [fst snd]. change (EMPTY ++ text) with text.
  destruct (for_lines interpret (lit "message") [] (removelast (split text)))
    as [ys' [[ev dl]|]]; [|discriminate].
  rewrite app_nil_r.
  intros H. injection H as <- <-. cbn [buffer decoder eventName dataLines].
  repeat split. apply last_split_no_LF.
Qed.

End FramerInvariants.

(** ** UTF-8 *)

Lemma all_below_spec (f : N -> bool) (bits : nat) (prefix : N) :
  all_below bits prefix f = true ->
  forall x, x < 2 ^ N.of_nat bits -> f (prefix * 2 ^ N.of_nat bits + x) = true.
Proof.
  revert prefix; induction bits as [|k IH]; intros prefix H x Hx.
  - cbn in Hx. assert (x = 0) as -> by lia. cbn [all_below] in H.
    replace (prefix * 2 ^ N.of_nat 0 + 0) with prefix by (cbn; lia). exact H.
  - cbn [all_below] in H. apply andb_true_iff in H as [H0 H1].
    rewrite Nat2N.inj_succ, N.pow_succ_r' in *.
    destruct (N.ltb x (2 ^ N.of_nat k)) eqn:E.
    + apply N.ltb_lt in E.
      replace (prefix * (2 * 2 ^ N.of_nat k) + x)
        with (2 * prefix * 2 ^ N.of_nat k + x) by lia.
      apply IH; assumption.
    + apply N.ltb_ge in E.
      replace (prefix * (2 * 2 ^ N.of_nat k) + x)
        with ((2 * prefix + 1) * 2 ^ N.of_nat k + (x - 2 ^ N.of_nat k)) by lia.
      apply IH; [assumption|lia].
Qed.

Lemma decoder_eqb_eq (a b : utf8_decoder) : decoder_eqb a b = true -> a = b.
Proof.
  unfold decoder_eqb. intros H.
  repeat (apply andb_true_iff in H as [H ?]).
  repeat match goal with E : N.eqb _ _ = true |- _ => apply N.eqb_eq in E end.
  destruct a, b; cbn in *; subst. reflexivity.
Qed.

Lemma all_lead_bytes_ok : all_below 15 0 lead_bytes_ok = true.
Proof. vm_compute. reflexivity. Qed.

Lemma lead_bytes_decode (hi : N) :
  lead_in_range hi = true ->
  process_queue utf8_initial (utf8_lead_bytes hi) = (pending_state hi, []).
Proof.
  intros Hr.
  assert (hi < 2 ^ N.of_nat 15) as Hlt.
  { unfold lead_in_range in Hr. apply orb_true_iff in Hr as [H|H];
      apply andb_true_iff in H as [_ H];
      [apply N.ltb_lt in H|apply N.leb_le in H]; cbn; lia. }
  pose proof (@all_below_spec lead_bytes_ok 15 0 all_lead_bytes_ok hi Hlt) as H.
  rewrite N.mul_0_l, N.add_0_l in H. unfold lead_bytes_ok in H. rewrite Hr in H.
  cbn [negb orb] in H.
  destruct (process_queue utf8_initial (utf8_lead_bytes hi)) as [d [|x l]];
    [|discriminate H].
  apply decoder_eqb_eq in H. rewrite H. reflexivity.
Qed.

Lemma to_N_byte_of_N (n : N) : n <= 255 -> Byte.to_N (byte_of_N n) = n.
Proof.
  intros H. unfold byte_of_N. destruct (Byte.of_N n) as [b|] eqn:E.
  - apply Byte.to_of_N. exact E.
  - apply Byte.of_N_None_iff in E. lia.
Qed.

Lemma land_low_bits (a lo : N) : lo < 64 -> N.land (a * 64 + lo) 0x3F = lo.
Proof.
  intros H. change 0x3F with (N.ones 6). rewrite N.land_ones.
  change (2 ^ 6) with 64. rewrite N.add_comm, N.Div0.mod_add.
  apply N.mod_small. exact H.
Qed.

Lemma last_byte_decode (hi lo : N) :
  lo < 64 ->
  process_queue (pending_state hi) [byte_of_N (0x80 + lo)] =
  (utf8_initial, [N.lor (N.shiftl hi 6) lo]).
Proof.
  intros H. cbn [process_queue]. unfold process_byte, utf8_handler.
  rewrite to_N_byte_of_N by lia.
  assert (N.land (0x80 + lo) 0x3F = lo) as ->.
  { replace (0x80 + lo) with (2 * 64 + lo) by lia. apply land_low_bits. exact H. }
  unfold pending_state. cbn [bytes_needed bytes_seen code_point lower_boundary upper_boundary].
  assert (between 0x80 (0x80 + lo) 0xBF = true) as ->.
  { unfold between. apply andb_true_iff. split; apply N.leb_le; lia. }
  cbn [negb].
  destruct (N.leb hi 0x1F); [reflexivity|].
  destruct (N.leb hi 0x3FF); reflexivity.
Qed.

Lemma shiftr_6_le (cp bound : N) :
  N.leb (N.shiftr cp 6) bound = N.leb cp (64 * bound + 63).
Proof.
  rewrite N.shiftr_div_pow2. change (2 ^ 6) with 64.
  pose proof (N.div_mod cp 64 ltac:(lia)) as Hd.
  pose proof (N.mod_lt cp 64 ltac:(lia)) as Hm.
  destruct (N.leb_spec (cp / 64) bound), (N.leb_spec cp (64 * bound + 63));
    try reflexivity; exfalso;
    generalize dependent (cp / 64); generalize dependent (cp mod 64);
    intros; lia.
Qed.

Lemma utf8_encode_split (cp : N) :
  0x7F < cp ->
  utf8_encode cp = utf8_lead_bytes (N.shiftr cp 6) ++ [continuation cp 0].
Proof.
  intros H. unfold utf8_encode, utf8_lead_bytes.
  apply N.leb_gt in H. rewrite H.
  rewrite !shiftr_6_le. change (64 * 0x1F + 63) with 0x7FF.
  change (64 * 0x3FF + 63) with 0xFFFF.
  unfold continuation. rewrite !N.shiftr_shiftr.
  change (6 + 6) with 12. change (6 + 12) with 18.
  destruct (N.leb cp 0x7FF); [reflexivity|].
  destruct (N.leb cp 0xFFFF); reflexivity.
Qed.

Lemma utf8_decode_encode (cp : N) :
  is_scalar_value cp = true ->
  process_queue utf8_initial (utf8_encode cp) = (utf8_initial, [cp]).
Proof.
  intros Hs. destruct (N.leb cp 0x7F) eqn:Ea.
  - apply N.leb_le in Ea. unfold utf8_encode.
    assert (N.leb cp 0x7F = true) as -> by (apply N.leb_le; exact Ea).
    cbn [process_queue]. unfold process_byte, utf8_handler.
    rewrite to_N_byte_of_N by lia. cbn [utf8_initial bytes_needed N.eqb].
    assert (between 0 cp 0x7F = true) as ->.
    { unfold between. apply andb_true_iff. split; apply N.leb_le; lia. }
    reflexivity.
  - apply N.leb_gt in Ea. rewrite (utf8_encode_split Ea), process_queue_app.
    assert (lead_in_range (N.shiftr cp 6) = true) as Hr.
    { unfold lead_in_range, is_scalar_value in *.
      rewrite N.shiftr_div_pow2. change (2 ^ 6) with 64.
      pose proof (N.div_mod cp 64 ltac:(lia)) as Hd.
      pose proof (N.mod_lt cp 64 ltac:(lia)) as Hm.
      generalize dependent (cp / 64). generalize dependent (cp mod 64).
      intros r Hm q Hd.
      apply orb_true_iff in Hs as [H|H]; apply orb_true_iff.
      - apply N.ltb_lt in H. left. apply andb_true_iff.
        split; [apply N.leb_le|apply N.ltb_lt]; lia.
      - apply andb_true_iff in H as [H1 H2]. apply N.leb_le in H1, H2.
        right. apply andb_true_iff. split; apply N.leb_le; lia. }
    rewrite (lead_bytes_decode _ Hr).
    unfold continuation. rewrite N.shiftr_0_r.
    assert (N.land cp 0x3F < 64) as Hlo.
    { change 0x3F with (N.ones 6). rewrite N.land_ones. apply N.mod_lt. discriminate. }
    rewrite (last_byte_decode _ Hlo). cbn [app]. f_equal. f_equal.
    change 0x3F with (N.ones 6).
    rewrite <- N.ldiff_ones_r. apply N.lor_ldiff_and.
Qed.

Lemma process_queue_encoded (scalars : list N) :
  Forall (fun cp => is_scalar_value cp = true) scalars ->
  process_queue utf8_initial (flat_map utf8_encode scalars) = (utf8_initial, scalars).
Proof.
  induction 1 as [|cp scalars Hcp _ IH]; [reflexivity|].
  cbn [flat_map]. rewrite process_queue_app, (utf8_decode_encode cp Hcp), IH.
  reflexivity.
Qed.

Lemma serialize_BOM_seen (scalars : list N) :
  serialize true scalars = (true, flat_map utf16 scalars).
Proof.
  induction scalars as [|c r IH]; [reflexivity|].
  cbn [serialize flat_map]. rewrite IH. reflexivity.
Qed.

Lemma serialize_first (scalars : list N) :
  snd (serialize false scalars) = flat_map utf16 (without_BOM scalars).
Proof.
  destruct scalars as [|c r]; [reflexivity|].
  cbn [serialize without_BOM]. destruct (N.eqb c 0xFEFF).
  - rewrite serialize_BOM_seen. reflexivity.
  - rewrite serialize_BOM_seen. reflexivity.
Qed.

Lemma decode_chunks_concat (t : TextDecoder) (body : list (list byte)) :
  decode_chunks t body = decode t (List.concat body).
Proof.
  revert t; induction body as [|value rest IH]; intros t.
  - cbn [decode_chunks List.concat]. unfold decode. cbn [process_queue serialize].
    destruct t; reflexivity.
  - cbn [decode_chunks List.concat]. rewrite decode_app.
    destruct (decode t value) as [t1 s1]. rewrite IH. reflexivity.
Qed.

(** X22. Round trip of the text: however the UTF-8 encoding of a sequence
    of scalar values is cut into chunks, the text that the decoder of the
    loop returns over the chunks is that sequence in UTF-16, without the
    byte order mark when it starts with one, and the decoder ends in its
    initial state (no byte is left pending). *)
Theorem decoded_text_of_encoding (scalars : list N) (body : list (list byte)) :
  Forall (fun cp => is_scalar_value cp = true) scalars ->
  List.concat body = flat_map utf8_encode scalars ->
  snd (decode_chunks new_TextDecoder body) =
    flat_map utf16 (without_BOM scalars) /\
  decoder_state (fst (decode_chunks new_TextDecoder body)) = utf8_initial.
Proof.
  intros Hs Hb. rewrite decode_chunks_concat. unfold decode. rewrite Hb.
  cbn [new_TextDecoder decoder_state BOM_seen].
  rewrite (process_queue_encoded Hs).
  pose proof (serialize_first scalars) as Hf.
  destruct (serialize false scalars) as [b text]. cbn [fst snd] in *.
  split; [exact Hf|reflexivity].
Qed.

(** ** Errors *)

Lemma auth_error_not_retryable (e : RagoraError.t) :
  RagoraError.isAuthError e = true ->
  RagoraError.isRetryable e = false /\ RagoraError.isRateLimited e = false.
Proof.
  unfold RagoraError.isRateLimited, RagoraError.isAuthError, RagoraError.isRetryable.
  intros H. apply orb_true_iff in H as [H|H]; apply N.eqb_eq in H; rewrite H;
    split; reflexivity.
Qed.

(** X6. The classification of an error by its status code: a rate limit
    error is retryable, an authentication error is neither retryable nor a
    rate limit error, and a retryable error has one of the five codes 429,
    500, 502, 503, 504. *)
Theorem error_classes (e : RagoraError.t) :
  (RagoraError.isRateLimited e = true -> RagoraError.isRetryable e = true) /\
  (RagoraError.isAuthError e = true ->
   RagoraError.isRetryable e = false /\ RagoraError.isRateLimited e = false) /\
  (RagoraError.isRetryable e = true <->
   In (RagoraError.statusCode e) [429; 500; 502; 503; 504]).
Proof.
  split; [|split; [apply auth_error_not_retryable|]].
  - unfold RagoraError.isRateLimited, RagoraError.isRetryable.
    intros H. apply N.eqb_eq in H. rewrite H. reflexivity.
  - unfold RagoraError.isRetryable. rewrite existsb_exists. split.
    + intros (x & Hin & Hx). apply N.eqb_eq in Hx. subst x. exact Hin.
    + intros Hin. exists (RagoraError.statusCode e). split; [exact Hin|apply N.eqb_refl].
Qed.

Section RequestFacts.

Context {P : Platform} {G : Globals}.

Lemma handleError_try_fields (response : Response) (rid : option jsstring)
      (e : RagoraError.t) :
  handleError_try response rid = Normal e ->
  RagoraError.statusCode e = status response /\
  RagoraError.requestId e = rid /\
  (forall a, RagoraError.error e = Some a ->
             APIError.requestId a = rid /\
             RagoraError.message e = APIError.message a).
Proof.
  unfold handleError_try.
  destruct (json response) as [data|x]; cbn [bind]; [|discriminate].
  destruct (get_property data (lit "error")) as [err|x]; cbn [bind]; [|discriminate].
  destruct (truthy err).
  - destruct (typeof_object err).
    + destruct (get_property err (lit "code")) as [c|x]; cbn [bind]; [|discriminate].
      destruct (ToString _) as [code|x]; cbn [bind]; [|discriminate].
      destruct (get_property err (lit "message")) as [m|x]; cbn [bind]; [|discriminate].
      destruct (ToString _) as [msg|x]; cbn [bind]; [|discriminate].
      destruct (get_property err (lit "details")) as [d|x]; cbn [bind]; [|discriminate].
      intros H. injection H as <-. cbn.
      split; [reflexivity|]. split; [reflexivity|].
      intros a Ha. injection Ha as <-. split; reflexivity.
    + destruct (ToString err) as [s|x]; cbn [bind]; [|discriminate].
      intros H. injection H as <-. cbn.
      split; [reflexivity|]. split; [reflexivity|]. discriminate.
  - destruct (get_property data (lit "message")) as [m|x]; cbn [bind]; [|discriminate].
    destruct (ToString _) as [s|x]; cbn [bind]; [|discriminate].
    intros H. injection H as <-. cbn.
    split; [reflexivity|]. split; [reflexivity|]. discriminate.
Qed.

Lemma handleError_fields (response : Response) (rid : option jsstring) :
  RagoraError.statusCode (handleError response rid) = status response /\
  RagoraError.requestId (handleError response rid) = rid /\
  (forall a, RagoraError.error (handleError response rid) = Some a ->
             APIError.requestId a = rid /\
             RagoraError.message (handleError response rid) = APIError.message a).
Proof.
  unfold handleError.
  destruct (handleError_try response rid) as [e|x] eqn:E.
  - exact (handleError_try_fields response rid E).
  - cbn. split; [reflexivity|]. split; [reflexivity|]. discriminate.
Qed.

(** X7. Whatever the body of the response is (no JSON, [null], a record
    with or without [error], a value whose conversion raises), the error
    that [handleError] throws is a [RagoraError] with the status of the
    response as its status code and the request id it was given; when it
    carries a structured error, that one has the same request id and its
    message is the message of the error. *)
Theorem handleError_carries_status (response : Response) (rid : option jsstring) :
  RagoraError.statusCode (handleError response rid) = status response /\
  RagoraError.requestId (handleError response rid) = rid /\
  (forall a, RagoraError.error (handleError response rid) = Some a ->
             APIError.requestId a = rid /\
             RagoraError.message (handleError response rid) = APIError.message a).
Proof. exact (handleError_fields response rid). Qed.

(** X8. When the body is not JSON, or is [null], the message of the error
    is the status text of the response, or ["HTTP "] followed by the status
    when the status text is empty: it is never empty, and there is no
    structured error. *)
Theorem handleError_fallback (response : Response) (rid : option jsstring) :
  (exists x, json response = Throw x) \/ json response = Normal VNull ->
  RagoraError.message (handleError response rid) =
    match statusText response with
    | [] => lit "HTTP " ++ decimal_string (status response)
    | text => text
    end /\
  RagoraError.message (handleError response rid) <> EMPTY /\
  RagoraError.error (handleError response rid) = None.
Proof.
  intros H.
  assert (exists x, handleError_try response rid = Throw x) as [x E].
  { unfold handleError_try. destruct H as [[x ->]| ->]; eexists; reflexivity. }
  unfold handleError. rewrite E. cbn. unfold or_else.
  destruct (statusText response); repeat split; discriminate.
Qed.

(** X9. When the body is a record whose [error] is a record: if [String]
    returns on [error.code ?? 'unknown'] and on
    [error.message ?? 'Unknown error'], the error carries a structured error
    with these two strings as code and message, and with [error.details]
    when it is an array and the empty array otherwise; if [String] raises
    on one of them, the [catch] replaces the error: there is no structured
    error and the message is the status text, or ["HTTP <status>"]. A code
    or message that is null or undefined reads as ["unknown"] or
    ["Unknown error"], one that is a string as itself. *)
Theorem handleError_structured
    (response : Response) (rid : option jsstring) (data err : object) :
  json response = Normal (VObj data) ->
  get data (lit "error") = VObj err ->
  let code_of := ToString (coalesce (get err (lit "code")) (VStr (lit "unknown"))) in
  let message_of :=
    ToString (coalesce (get err (lit "message")) (VStr (lit "Unknown error"))) in
  (forall code message,
      code_of = Normal code -> message_of = Normal message ->
      handleError response rid =
        {| RagoraError.message := message;
           RagoraError.statusCode := status response;
           RagoraError.error :=
             Some {| APIError.code := code;
                     APIError.message := message;
                     APIError.details :=
                       match get err (lit "details") with VArr l => l | _ => [] end;
                     APIError.requestId := rid |};
           RagoraError.requestId := rid |}) /\
  ((exists x, code_of = Throw x) \/ (exists x, message_of = Throw x) ->
      handleError response rid =
        {| RagoraError.message :=
             or_else (statusText response)
                     (lit "HTTP " ++ decimal_string (status response));
           RagoraError.statusCode := status response;
           RagoraError.error := None;
           RagoraError.requestId := rid |}) /\
  (nullish (get err (lit "code")) = true -> code_of = Normal (lit "unknown")) /\
  (nullish (get err (lit "message")) = true ->
      message_of = Normal (lit "Unknown error")) /\
  (forall s, get err (lit "code") = VStr s -> code_of = Normal s) /\
  (forall s, get err (lit "message") = VStr s -> message_of = Normal s).
Proof.
  intros Hj He code_of message_of. subst code_of message_of.
  assert (handleError_try response rid =
          (code <- ToString (coalesce (get err (lit "code")) (VStr (lit "unknown"))) ;;
           message <- ToString (coalesce (get err (lit "message"))
                                         (VStr (lit "Unknown error"))) ;;
           Normal {| RagoraError.message := message;
                     RagoraError.statusCode := status response;
                     RagoraError.error :=
                       Some {| APIError.code := code;
                               APIError.message := message;
                               APIError.details :=
                                 match get err (lit "details") with
                                 | VArr l => l
                                 | _ => []
                                 end;
                               APIError.requestId := rid |};
                     RagoraError.requestId := rid |})) as Ht.
  { unfold handleError_try. rewrite Hj. cbn [bind get_property].
    rewrite He. cbn [bind truthy typeof_object get_property].
    destruct (ToString (coalesce (get err (lit "code")) (VStr (lit "unknown"))));
      [|reflexivity].
    cbn [bind].
    destruct (ToString (coalesce (get err (lit "message")) (VStr (lit "Unknown error"))));
      [|reflexivity].
    cbn [bind]. destruct (get err (lit "details")); reflexivity. }
  unfold handleError. rewrite Ht.
  split; [|split; [|split; [|split; [|split]]]].
  - intros code message Hc Hm. rewrite Hc. cbn [bind]. rewrite Hm. reflexivity.
  - intros [[x Hx]|[x Hx]].
    + rewrite Hx. reflexivity.
    + destruct (ToString (coalesce (get err (lit "code")) (VStr (lit "unknown"))));
        cbn [bind]; [rewrite Hx|]; reflexivity.
  - intros Hn. unfold coalesce. rewrite Hn. reflexivity.
  - intros Hn. unfold coalesce. rewrite Hn. reflexivity.
  - intros s Hs. rewrite Hs. reflexivity.
  - intros s Hs. rewrite Hs. reflexivity.
Qed.

(** X10. [request] raises a [RagoraError] exactly for a response whose
    status is outside 200-299, with that status as its status code and the
    [X-Request-ID] header as its request id; for a status inside, it
    returns the parsed body with the metadata, or raises what
    [response.json()] raised. *)
Theorem request_raises_on_status (response : Response) :
  (ok response = false ->
   exists e, request response = Raises (Ragora e) /\
             RagoraError.statusCode e = status response /\
             (RagoraError.statusCode e < 200 \/ 299 < RagoraError.statusCode e) /\
             RagoraError.requestId e = headers response (lit "X-Request-ID")) /\
  (ok response = true ->
   200 <= status response <= 299 /\
   request response =
     match json response with
     | Normal data => Returns (data, extractMetadata (headers response))
     | Throw x => Raises (Native x)
     end).
Proof.
  unfold request, ok, between. split; intros H; rewrite H; cbn [negb].
  - eexists. split; [reflexivity|].
    destruct (handleError_fields response
                (requestId (extractMetadata (headers response)))) as (Hs & Hr & _).
    rewrite Hs, Hr. split; [reflexivity|]. split; [|reflexivity].
    apply andb_false_iff in H as [H|H]; apply N.leb_gt in H; lia.
  - apply andb_true_iff in H as [H1 H2]. apply N.leb_le in H1, H2.
    split; [lia|reflexivity].
Qed.


End RequestFacts.

(** ** The responses of [search] and [chat] *)

Section ResponseFacts.

Context {P : Platform} {G : Globals}.

Lemma filter_records_length (l : list value) :
  (List.length (filter_records l) <= List.length l)%nat.
Proof.
  induction l as [|v l IH]; cbn [filter_records List.length]; [lia|].
  destruct (isRecord v); cbn [List.length]; lia.
Qed.

Lemma mapSearchResults_loop_length (raw : list value) (rs : list SearchResult) :
  mapSearchResults_loop raw = Normal rs ->
  List.length rs = List.length (filter_records raw).
Proof.
  revert rs; induction raw as [|v raw IH]; intros rs;
    cbn [mapSearchResults_loop filter_records].
  - intros H. injection H as <-. reflexivity.
  - destruct (isRecord v) as [o|]; [|apply IH].
    destruct (toSearchResult o) as [x|e]; cbn [bind]; [|discriminate].
    destruct (mapSearchResults_loop raw) as [xs|e]; cbn [bind]; [|discriminate].
    intros H. injection H as <-. cbn [List.length]. f_equal. apply IH. reflexivity.
Qed.

Lemma mapSearchResults_loop_raises (raw : list value) (r : object) (e : error) :
  In (VObj r) raw ->
  toSearchResult r = Throw e ->
  exists e', mapSearchResults_loop raw = Throw e'.
Proof.
  intros Hin Hr. induction raw as [|v raw IH]; [contradiction|].
  cbn [mapSearchResults_loop]. destruct Hin as [-> | Hin].
  - cbn [isRecord]. rewrite Hr. eexists. reflexivity.
  - destruct (IH Hin) as [e' He'].
    destruct (isRecord v) as [o|]; [|eexists; exact He'].
    destruct (toSearchResult o) as [x|e'']; cbn [bind]; [|eexists; reflexivity].
    rewrite He'. eexists. reflexivity.
Qed.

Lemma search_response_results (data : value) (metadata : ResponseMetadata)
      (query : jsstring) (resp : SearchResponse.t) :
  search_response data metadata query = Normal resp ->
  exists raw, get_property data (lit "results") = Normal raw /\
              mapSearchResults raw = Normal (SearchResponse.results resp) /\
              SearchResponse.total resp = List.length (SearchResponse.results resp).
Proof.
  unfold search_response.
  destruct data; cbn [get_property bind]; try discriminate;
    (destruct (mapSearchResults _) as [rs|e] eqn:Em; cbn [bind]; [|discriminate]);
    intros H; injection H as <-; eexists; (split; [reflexivity|]);
    (split; [exact Em|reflexivity]).
Qed.

(** X12. In the response of [search], [total] is the number of results,
    which is the number of entries of the raw [results] that are records
    (the others are passed over) and so at most the number of raw entries;
    every result has a finite score; and a [results] that is not an array
    gives no result and a total of 0, without error. *)
Theorem search_total_counts_records
    (data : value) (metadata : ResponseMetadata) (query : jsstring)
    (resp : SearchResponse.t) :
  search_response data metadata query = Normal resp ->
  SearchResponse.total resp = List.length (SearchResponse.results resp) /\
  Forall (fun r => Number_isFinite (score r) = true) (SearchResponse.results resp) /\
  (forall o raw, data = VObj o -> get o (lit "results") = VArr raw ->
      SearchResponse.total resp = List.length (filter_records raw) /\
      (SearchResponse.total resp <= List.length raw)%nat) /\
  (forall o, data = VObj o -> Array_isArray (get o (lit "results")) = None ->
      SearchResponse.results resp = [] /\ SearchResponse.total resp = 0%nat).
Proof.
  intros H. destruct (search_response_results _ _ _ H) as (raw & Hraw & Hmap & Htot).
  split; [exact Htot|]. split; [exact (mapSearchResults_finite raw Hmap)|]. split.
  - intros o l -> Hl. cbn [get_property] in Hraw. injection Hraw as <-.
    rewrite Hl in Hmap. cbn [mapSearchResults Array_isArray] in Hmap.
    rewrite Htot, (mapSearchResults_loop_length l Hmap).
    split; [reflexivity|apply filter_records_length].
  - intros o -> Hn. cbn [get_property] in Hraw. injection Hraw as <-.
    unfold mapSearchResults in Hmap. rewrite Hn in Hmap. injection Hmap as Hmap.
    rewrite Htot, <- Hmap. split; reflexivity.
Qed.

(** X13. [search] can fail on a response whose status is in 200-299, with
    an error that is not a [RagoraError]: when the body is not JSON or is
    [null], and when one record of [results] cannot be coerced (the whole
    list is lost, where the stream only drops the frame). *)
Theorem search_raises_native (response : Response) (query : jsstring) :
  ok response = true ->
  ((exists x, json response = Throw x) \/ json response = Normal VNull ->
   exists e, search response query = Raises (Native e)) /\
  (forall o raw r e,
      json response = Normal (VObj o) ->
      get o (lit "results") = VArr raw ->
      In (VObj r) raw ->
      toSearchResult r = Throw e ->
      exists e', search response query = Raises (Native e')).
Proof.
  intros Hok. unfold search, request. rewrite Hok. cbn [negb]. split.
  - intros [[x ->]| ->]; eexists; reflexivity.
  - intros o raw r e -> Hraw Hin Hr.
    destruct (mapSearchResults_loop_raises raw r Hin Hr) as [e' He'].
    unfold search_response. cbn [get_property bind]. rewrite Hraw.
    cbn [mapSearchResults Array_isArray]. rewrite He'. cbn [bind].
    eexists. reflexivity.
Qed.

Lemma chat_choices_length (l : list value) (cs : list ChatChoice.t) :
  chat_choices l = Normal cs -> List.length cs = List.length l.
Proof.
  revert cs; induction l as [|c l IH]; intros cs; cbn [chat_choices].
  - intros H. injection H as <-. reflexivity.
  - destruct (chat_choice c) as [x|e]; cbn [bind]; [|discriminate].
    destruct (chat_choices l) as [xs|e]; cbn [bind]; [|discriminate].
    intros H. injection H as <-. cbn [List.length]. f_equal. apply IH. reflexivity.
Qed.

(** A choice is mapped when it and its [message] are neither null nor
    undefined. *)
Lemma chat_choice_normal (c : value) :
  (exists x, chat_choice c = Normal x) <->
  nullish c = false /\
  (forall m, get_property c (lit "message") = Normal m -> nullish m = false).
Proof.
  unfold chat_choice. split.
  - intros [x H]. destruct c; cbn [get_property bind] in H; try discriminate H;
      (split; [reflexivity|]); intros m Hm; cbn [get_property] in Hm;
      injection Hm as <-; try discriminate H.
    destruct (get props (lit "message")); cbn [get_property bind] in H;
      try discriminate H; reflexivity.
  - intros [Hc Hm]. destruct c; try discriminate Hc; cbn [get_property bind] in *;
      try (specialize (Hm _ eq_refl); discriminate Hm).
    specialize (Hm _ eq_refl).
    destruct (get props (lit "message")); try discriminate Hm;
      cbn [get_property bind]; eexists; reflexivity.
Qed.

(** X14. [chat] returns exactly when [choices] is an array whose entries,
    and their [message], are neither null nor undefined, and the
    extraction of the sources does not raise; it then has as many choices
    as the body, in order, and the sources that the stream extracts from
    the same payload. Otherwise it raises an error of the platform. *)
Theorem chat_response_returns (data : object) (metadata : ResponseMetadata) :
  ((exists r, chat_response (VObj data) metadata = Normal r) <->
   (exists l srcs,
       get data (lit "choices") = VArr l /\
       Forall (fun c => nullish c = false /\
                        forall m, get_property c (lit "message") = Normal m ->
                                  nullish m = false) l /\
       extractChatSources data = Normal srcs)) /\
  (forall r, chat_response (VObj data) metadata = Normal r ->
     exists l, get data (lit "choices") = VArr l /\
               List.length (ChatResponse.choices r) = List.length l /\
               extractChatSources data = Normal (ChatResponse.sources r)).
Proof.
  split.
  2:{ unfold chat_response. cbn [get_property bind as_record]. intros r H.
      destruct (get data (lit "choices")) as [| | | | |l|]; cbn [Array_isArray bind] in H;
        try discriminate H.
      destruct (chat_choices l) as [cs|e] eqn:Ec; cbn [bind] in H; [|discriminate H].
      destruct (extractChatSources data) as [srcs|e]; cbn [bind] in H; [|discriminate H].
      exists l. split; [reflexivity|].
      destruct (get data (lit "usage")) as [| |[|]|[]|[|]| |];
        cbn [truthy negb is_empty get_property bind] in H;
        injection H as <-; cbn; (split; [exact (chat_choices_length l Ec)|reflexivity]). }
  unfold chat_response. cbn [get_property bind as_record]. split.
  - intros [r H].
    destruct (get data (lit "choices")) as [| | | | |l|]; cbn [Array_isArray bind] in H;
      try discriminate H.
    destruct (chat_choices l) as [cs|e] eqn:Ec; cbn [bind] in H; [|discriminate H].
    destruct (extractChatSources data) as [srcs|e]; cbn [bind] in H; [|discriminate H].
    exists l, srcs. split; [reflexivity|]. split; [|reflexivity].
    clear H. revert cs Ec. induction l as [|c l IH]; intros cs Ec; [constructor|].
    cbn [chat_choices] in Ec.
    destruct (chat_choice c) as [x|e] eqn:Ex; cbn [bind] in Ec; [|discriminate Ec].
    destruct (chat_choices l) as [xs|e]; cbn [bind] in Ec; [|discriminate Ec].
    constructor; [|eapply IH; reflexivity].
    apply chat_choice_normal. exists x. exact Ex.
  - intros (l & srcs & -> & Hall & ->). cbn [Array_isArray].
    assert (exists cs, chat_choices l = Normal cs) as [cs ->].
    { induction Hall as [|c l Hc Hall IH]; [eexists; reflexivity|].
      cbn [chat_choices]. apply chat_choice_normal in Hc as [x ->].
      destruct IH as [cs ->]. eexists. reflexivity. }
    cbn [bind].
    destruct (get data (lit "usage")) as [| |[|]|[]|[|]| |];
      cbn [truthy negb is_empty get_property bind]; eexists; reflexivity.
Qed.

End ResponseFacts.

(** ** Documents *)

Section DocumentFacts.

Context {P : Platform}.

(** X15. [waitForDocument] returns a completed status as soon as a poll
    gives one, whatever the clock says at that moment: the timeout is only
    checked after a status that is neither completed nor failed, so the
    first poll always happens and a document that is ready is returned even
    with a timeout of 0. *)
Theorem waitForDocument_returns_completed
    (documentId : jsstring) (options_timeout : option Z) (startTime : Z)
    (before more : list (outcome DocumentStatus.t * Z))
    (status : DocumentStatus.t) (now : Z) :
  Forall (pending (match options_timeout with Some t => t | None => 300000%Z end)
                  startTime) before ->
  is_string (DocumentStatus.status status) (lit "completed") = true ->
  waitForDocument documentId options_timeout startTime
                  (before ++ (Returns status, now) :: more)
  = Some (Returns status).
Proof.
  unfold waitForDocument. intros Hb Hs.
  induction Hb as [|[o t] before (s & Ho & Hc & Hf & Ht) Hb IH]; cbn [app waitForDocument_loop].
  - rewrite Hs. reflexivity.
  - cbn [fst snd] in Ho, Ht. subst o. rewrite Hc, Hf.
    apply Z.leb_gt in Ht. rewrite Ht. exact IH.
Qed.

Lemma waitForDocument_loop_ends
      (documentId : jsstring) (timeout startTime pollInterval : Z)
      (polls : list (outcome DocumentStatus.t * Z)) (last : Z) :
  polls <> [] ->
  paced pollInterval last polls ->
  (timeout <= last - startTime + (Z.of_nat (List.length polls) - 1) * pollInterval)%Z ->
  waitForDocument_loop documentId timeout startTime polls <> None.
Proof.
  revert last; induction polls as [|[o now] more IH]; intros last Hne Hp Hb;
    [contradiction|].
  cbn [waitForDocument_loop]. destruct Hp as [Hl Hp].
  destruct o as [status|e]; [|discriminate].
  destruct (is_string _ (lit "completed")); [discriminate|].
  destruct (is_string _ (lit "failed")).
  { destruct (ToString _); discriminate. }
  destruct (timeout <=? now - startTime)%Z eqn:Et; [discriminate|].
  apply Z.leb_gt in Et.
  destruct more as [|p more'].
  - cbn [List.length] in Hb. lia.
  - apply (IH (now + pollInterval)%Z); [discriminate|exact Hp|].
    cbn [List.length] in *. lia.
Qed.

(** X16. When the clock advances by the poll interval at least between two
    iterations, [waitForDocument] is over after at most
    [timeout / pollInterval + 1] polls (rounded up): it has returned or
    raised by the poll whose index times the interval reaches the
    timeout. *)
Theorem waitForDocument_ends
    (documentId : jsstring) (options_timeout options_pollInterval : option Z)
    (startTime : Z) (polls : list (outcome DocumentStatus.t * Z)) :
  polls <> [] ->
  paced (pollInterval_of options_pollInterval) startTime polls ->
  (match options_timeout with Some t => t | None => 300000 end
   <= (Z.of_nat (List.length polls) - 1) * pollInterval_of options_pollInterval)%Z ->
  exists result,
    waitForDocument documentId options_timeout startTime polls = Some result.
Proof.
  intros Hne Hp Hb. unfold waitForDocument.
  destruct (waitForDocument_loop documentId _ startTime polls) as [r|] eqn:E.
  - exists r. reflexivity.
  - exfalso. revert E.
    apply (@waitForDocument_loop_ends documentId _ startTime
             (pollInterval_of options_pollInterval) polls startTime);
      [exact Hne|exact Hp|lia].
Qed.

(** X17. The [RagoraError]s that [waitForDocument] throws itself when every
    poll returned a status: a failed document gives an error of status
    500, which the error class counts as retryable, with the progress
    stage (or ["unknown error"]) in its message; running out of time gives
    an error of status 408, which is not retryable. Both carry the
    document id as their request id. *)
Theorem waitForDocument_errors
    (documentId : jsstring) (options_timeout : option Z) (startTime : Z)
    (polls : list (outcome DocumentStatus.t * Z)) (e : RagoraError.t) :
  Forall (fun poll => exists status, fst poll = Returns status) polls ->
  waitForDocument documentId options_timeout startTime polls = Some (Raises (Ragora e)) ->
  RagoraError.requestId e = Some documentId /\
  RagoraError.error e = None /\
  ((exists stage, e = processing_failed documentId stage /\
                  RagoraError.statusCode e = 500 /\
                  RagoraError.isRetryable e = true) \/
   (e = processing_timeout documentId /\
    RagoraError.statusCode e = 408 /\
    RagoraError.isRetryable e = false /\
    exists status now,
      In (Returns status, now) polls /\
      (match options_timeout with Some t => t | None => 300000 end
       <= now - startTime)%Z)).
Proof.
  unfold waitForDocument. intros Hall.
  induction Hall as [|[o now] more (status & Ho) Hall IH]; cbn [waitForDocument_loop];
    [discriminate|].
  cbn [fst] in Ho. subst o.
  destruct (is_string _ (lit "completed")); [discriminate|].
  destruct (is_string _ (lit "failed")).
  { destruct (ToString _) as [stage|x]; [|discriminate].
    intros H. injection H as <-. split; [reflexivity|]. split; [reflexivity|].
    left. exists stage. repeat split. }
  destruct (_ <=? now - startTime)%Z eqn:Et.
  - intros H. injection H as <-. split; [reflexivity|]. split; [reflexivity|].
    right. repeat split. exists status, now. split; [left; reflexivity|].
    apply Z.leb_le. exact Et.
  - intros H. destruct (IH H) as (Hr & He & [Hf|(Ht & Hs & Hn & st & t & Hin & Hle)]).
    + split; [exact Hr|]. split; [exact He|]. left. exact Hf.
    + split; [exact Hr|]. split; [exact He|]. right.
      repeat split; try assumption. exists st, t. split; [right; exact Hin|exact Hle].
Qed.

(** X18. A body without [status] (or with a null one) gives the status
    ["unknown"], which is neither completed nor failed: polling such a
    document can only end by the timeout. *)
Theorem missing_status_is_unknown
    (documentId : jsstring) (data : object) (s : DocumentStatus.t) :
  nullish (get data (lit "status")) = true ->
  getDocumentStatus_response documentId (VObj data) = Normal s ->
  DocumentStatus.status s = VStr (lit "unknown") /\
  is_string (DocumentStatus.status s) (lit "completed") = false /\
  is_string (DocumentStatus.status s) (lit "failed") = false /\
  (forall options_timeout startTime now,
      waitForDocument documentId options_timeout startTime [(Returns s, now)] =
      if (match options_timeout with Some t => t | None => 300000 end
          <=? now - startTime)%Z
      then Some (Raises (Ragora (processing_timeout documentId)))
      else None).
Proof.
  intros Hn H. unfold getDocumentStatus_response in H.
  cbn [get_property bind] in H. injection H as <-.
  cbn [DocumentStatus.status]. unfold coalesce. rewrite Hn.
  split; [reflexivity|]. split; [reflexivity|]. split; [reflexivity|].
  intros ot st now. unfold waitForDocument.
  cbn [waitForDocument_loop DocumentStatus.status is_string].
  destruct (_ <=? _)%Z; reflexivity.
Qed.

End DocumentFacts.

(** ** Collections and the constructor *)

Lemma toCollection_counters (c : value) (x : Collection.t) :
  toCollection c = Normal x ->
  Forall (fun v => nullish v = false) (Collection.counters x).
Proof.
  unfold toCollection.
  destruct c; cbn [get_property bind]; try discriminate;
    intros H; injection H as <-; unfold Collection.counters; cbn;
    repeat constructor; unfold coalesce;
    match goal with |- nullish (if nullish ?v then _ else _) = false =>
      destruct v; reflexivity end.
Qed.


Lemma strip_trailing_slash_snoc (u : jsstring) (c : code_unit) :
  strip_trailing_slash (u ++ [c]) = if N.eqb c SLASH then u else u ++ [c].
Proof.
  induction u as [|x u IH].
  - cbn. destruct (N.eqb c SLASH); reflexivity.
  - cbn [app]. change (strip_trailing_slash (x :: u ++ [c])) with
      (match u ++ [c] with
       | [] => if N.eqb x SLASH then [] else [x]
       | _ :: _ => x :: strip_trailing_slash (u ++ [c])
       end).
    destruct (u ++ [c]) eqn:E; [destruct u; discriminate|].
    rewrite IH. destruct (N.eqb c SLASH); reflexivity.
Qed.

(** X20. The base URL of the client is the configured one without its last
    character when that is a slash, and unchanged otherwise: exactly one
    trailing slash is removed, so a URL that ends with one slash at most
    gives a base URL that does not end with a slash, while a URL that ends
    with two keeps one. The default is [https://api.ragora.app]. *)
Theorem baseUrl_strips_one_slash :
  (forall u, baseUrl_of (Some (u ++ [SLASH])) = u) /\
  (forall u c, c <> SLASH -> baseUrl_of (Some (u ++ [c])) = u ++ [c]) /\
  baseUrl_of (Some EMPTY) = EMPTY /\
  baseUrl_of None = lit "https://api.ragora.app" /\
  (forall u, baseUrl_of (Some (u ++ [SLASH; SLASH])) = u ++ [SLASH]).
Proof.
  unfold baseUrl_of. repeat split.
  - intros u. rewrite strip_trailing_slash_snoc. reflexivity.
  - intros u c Hc. rewrite strip_trailing_slash_snoc.
    apply N.eqb_neq in Hc. rewrite Hc. reflexivity.
  - intros u. change [SLASH; SLASH] with ([SLASH] ++ [SLASH]).
    rewrite app_assoc, strip_trailing_slash_snoc. reflexivity.
Qed.

(** ** The retry loop of the example *)

Lemma searchWithRetry_from_bounds
      (maxRetries attempt : nat) (searches : list (outcome SearchResponse.t)) :
  let r := searchWithRetry_from maxRetries attempt searches in
  (calls r <= maxRetries - attempt)%nat /\
  (List.length (pauses r) <= maxRetries - 1 - attempt)%nat /\
  (forall e, result r = Some (Raises (Ragora e)) -> RagoraError.isRetryable e = false) /\
  (forall m, result r = Some (Raises (Failure m)) ->
             (forall e, In (Raises (Failure e)) searches -> False) ->
             calls r = (maxRetries - attempt)%nat).
Proof.
  revert attempt; induction searches as [|o more IH]; intros attempt;
    cbn [searchWithRetry_from].
  - destruct (maxRetries <=? attempt)%nat eqn:E; cbn [result calls pauses List.length];
      [apply Nat.leb_le in E|];
      (split; [lia|]); (split; [lia|]); (split; [discriminate|]).
    + intros m _ _. lia.
    + discriminate.
  - destruct (maxRetries <=? attempt)%nat eqn:E.
    { cbn [result calls pauses List.length]. apply Nat.leb_le in E.
      split; [lia|]. split; [lia|]. split; [discriminate|].
      intros m _ _. lia. }
    apply Nat.leb_gt in E.
    destruct o as [response|[error|x|m]]; cbn [result calls pauses List.length].
    + split; [lia|]. split; [lia|]. split; discriminate.
    + destruct (RagoraError.isAuthError error) eqn:Ea; cbn [result calls pauses List.length].
      { split; [lia|]. split; [lia|]. split; [|discriminate].
        intros e H. injection H as <-. apply auth_error_not_retryable. exact Ea. }
      destruct (RagoraError.isRetryable error) eqn:Er; cbn [negb result calls pauses List.length].
      2:{ split; [lia|]. split; [lia|]. split; [|discriminate].
          intros e H. injection H as <-. exact Er. }
      destruct (IH (S attempt)) as (Hc & Hp & He & Hf).
      split; [lia|]. split; [|split; [exact He|]].
      * rewrite length_app.
        destruct (attempt <? maxRetries - 1)%nat eqn:El; cbn [List.length];
          [apply Nat.ltb_lt in El|]; lia.
      * intros m Hm Hno. rewrite (Hf m Hm); [lia|].
        intros e Hin. apply (Hno e). right. exact Hin.
    + split; [lia|]. split; [lia|]. split; discriminate.
    + split; [lia|]. split; [lia|]. split; [discriminate|].
      intros m' _ Hno. exfalso. apply (Hno m). left. reflexivity.
Qed.

(** X21. [searchWithRetry] calls [search] at most [maxRetries] times and
    pauses at most [maxRetries - 1] times (never after the last attempt);
    a [RagoraError] that comes out of it is never a retryable one; and
    when it gives up with "Max retries exceeded", it has made all
    [maxRetries] calls (none when [maxRetries] is 0). *)
Theorem searchWithRetry_bounds
    (maxRetries : nat) (searches : list (outcome SearchResponse.t)) :
  (calls (searchWithRetry maxRetries searches) <= maxRetries)%nat /\
  (List.length (pauses (searchWithRetry maxRetries searches)) <= maxRetries - 1)%nat /\
  (forall e, result (searchWithRetry maxRetries searches) = Some (Raises (Ragora e)) ->
             RagoraError.isRetryable e = false) /\
  (forall m, result (searchWithRetry maxRetries searches) = Some (Raises (Failure m)) ->
             (forall e, In (Raises (Failure e)) searches -> False) ->
             calls (searchWithRetry maxRetries searches) = maxRetries).
Proof.
  unfold searchWithRetry.
  destruct (searchWithRetry_from_bounds maxRetries 0 searches) as (Hc & Hp & He & Hf).
  repeat split.
  - lia.
  - lia.
  - exact He.
  - intros m Hm Hno. rewrite (Hf m Hm Hno). lia.
Qed.

(** ** The decimal digits of a status *)

Lemma fold_digits_shift (ds : jsstring) (a : N) :
  fold_left (fun acc c => 10 * acc + Reference.digit_value c) ds a =
  a * 10 ^ N.of_nat (List.length ds) +
  fold_left (fun acc c => 10 * acc + Reference.digit_value c) ds 0.
Proof.
  revert a; induction ds as [|c ds IH]; intros a.
  - cbn. lia.
  - cbn [fold_left List.length]. rewrite (IH (10 * a + _)), (IH (10 * 0 + _)).
    rewrite Nat2N.inj_succ, N.pow_succ_r'. lia.
Qed.

Lemma decimal_digits_value (fuel : nat) (n : N) (acc : jsstring) :
  n < 2 ^ N.of_nat fuel ->
  fold_left (fun a c => 10 * a + Reference.digit_value c) (decimal_digits fuel n acc) 0 =
  fold_left (fun a c => 10 * a + Reference.digit_value c) acc n.
Proof.
  revert n acc; induction fuel as [|fuel IH]; intros n acc Hn.
  - cbn in Hn. assert (n = 0) as -> by lia. reflexivity.
  - cbn [decimal_digits].
    assert (Reference.digit_value (48 + n mod 10) = n mod 10) as Hd.
    { unfold Reference.digit_value, Reference.ch.
      change (N_of_ascii "0") with 48.
      rewrite N.add_comm. apply N.add_sub. }
    pose proof (N.div_mod n 10 ltac:(lia)) as Hdm.
    pose proof (N.mod_lt n 10 ltac:(lia)) as Hlt.
    destruct (N.eqb (n / 10) 0) eqn:E.
    + apply N.eqb_eq in E. cbn [fold_left]. rewrite Hd. f_equal. lia.
    + rewrite IH.
      * cbn [fold_left]. rewrite Hd. f_equal. lia.
      * rewrite Nat2N.inj_succ, N.pow_succ_r' in Hn.
        apply N.Div0.div_lt_upper_bound. lia.
Qed.

(** The digits of [decimal_string] read back as the number. *)
Lemma decimal_string_reads_back (n : N) :
  Reference.digits_value (decimal_string n) = n.
Proof.
  unfold Reference.digits_value, decimal_string.
  rewrite decimal_digits_value; [reflexivity|].
  rewrite Nat2N.inj_succ, N2Nat.id.
  destruct n as [|p]; [reflexivity|].
  apply N.log2_spec. lia.
Qed.

(** ** The properties on the sample responses *)

Module MoreSampleFacts.
Import MoreSamples.

#[local] Existing Instance Reference.platform.
#[local] Existing Instance ReferenceGlobals.globals.

Example not_found_message :
  RagoraError.toString (handleError not_found (Some (lit "req_1"))) =
  lit "[404] Collection not found (Request ID: req_1)".
Proof. vm_compute. reflexivity. Qed.

Example bad_code_message :
  RagoraError.error (handleError bad_code (Some (lit "req_1"))) = None /\
  RagoraError.toString (handleError bad_code (Some (lit "req_1"))) =
  lit "[404] Not Found (Request ID: req_1)".
Proof. split; vm_compute; reflexivity. Qed.

Example bad_gateway_message :
  RagoraError.toString (handleError bad_gateway None) = lit "[502] HTTP 502".
Proof. vm_compute. reflexivity. Qed.

Example rate_limit_metadata :
  let headers key :=
    if str_eqb key (lit "X-RateLimit-Remaining") then Some (lit "42")
    else if str_eqb key (lit "X-Ragora-Cost-USD") then Some (lit "n/a")
    else None in
  rateLimitRemaining (extractMetadata headers) =
    Some (S754_finite false 5910974510923776 (-47)) /\
  costUsd (extractMetadata headers) = None.
Proof. split; vm_compute; reflexivity. Qed.

Lemma loop_state_of_text_witness :
  drain parseEvent initial_state Samples.unterminated =
    ([], Some Samples.unterminated_state) /\
  buffer Samples.unterminated_state =
    last (split (decoded_text Samples.unterminated)) EMPTY /\
  no_LF (buffer Samples.unterminated_state).
Proof.
  assert (drain parseEvent initial_state Samples.unterminated =
          ([], Some Samples.unterminated_state)) as h1 by (vm_compute; reflexivity).
  split; [exact h1|].
  destruct (@loop_state_of_text _ parseEvent Samples.unterminated _ _ h1)
    as (Hb & Hn & _).
  split; [exact Hb|exact Hn].
Defined.

Lemma handleError_fallback_witness :
  ((exists x, json bad_gateway = Throw x) \/ json bad_gateway = Normal VNull) /\
  RagoraError.message (handleError bad_gateway None) = lit "HTTP 502".
Proof.
  assert ((exists x, json bad_gateway = Throw x) \/ json bad_gateway = Normal VNull) as h1
    by (left; exists SyntaxError; reflexivity).
  split; [exact h1|].
  destruct (@handleError_fallback _ bad_gateway None h1) as (Hm & _).
  rewrite Hm. vm_compute. reflexivity.
Defined.

Lemma handleError_structured_witness :
  json not_found = Normal (VObj not_found_record) /\
  get not_found_record (lit "error") = VObj not_found_error /\
  RagoraError.message (handleError not_found (Some (lit "req_1")))
    = lit "Collection not found".
Proof.
  assert (json not_found = Normal (VObj not_found_record)) as h1
    by (vm_compute; reflexivity).
  assert (get not_found_record (lit "error") = VObj not_found_error) as h2
    by (vm_compute; reflexivity).
  repeat (split; [assumption|]).
  destruct (@handleError_structured _ not_found (Some (lit "req_1")) _ _ h1 h2)
    as (He & _).
  rewrite (He (lit "not_found") (lit "Collection not found"));
    vm_compute; reflexivity.
Defined.

Lemma search_total_counts_records_witness :
  search_response search_data no_metadata (lit "q") = Normal search_result /\
  SearchResponse.total search_result = 2%nat /\
  List.length search_raw = 3%nat.
Proof.
  assert (search_response search_data no_metadata (lit "q") = Normal search_result) as h1
    by (vm_compute; reflexivity).
  split; [exact h1|].
  destruct (@search_total_counts_records _ search_data no_metadata (lit "q") _ h1)
    as (_ & _ & Hc & _).
  destruct (Hc search_record search_raw eq_refl eq_refl) as (Ht & _).
  split; [rewrite Ht; reflexivity|reflexivity].
Defined.

Lemma search_raises_native_witness :
  ok poisoned = true /\
  json poisoned = Normal (VObj poisoned_record) /\
  get poisoned_record (lit "results") = VArr poisoned_raw /\
  In (VObj poisoned_source) poisoned_raw /\
  toSearchResult poisoned_source = Throw TypeError /\
  exists e, search poisoned (lit "q") = Raises (Native e).
Proof.
  assert (ok poisoned = true) as h1 by reflexivity.
  assert (json poisoned = Normal (VObj poisoned_record)) as h2
    by (vm_compute; reflexivity).
  assert (get poisoned_record (lit "results") = VArr poisoned_raw) as h3
    by (vm_compute; reflexivity).
  assert (In (VObj poisoned_source) poisoned_raw) as h4
    by (right; left; vm_compute; reflexivity).
  assert (toSearchResult poisoned_source = Throw TypeError) as h5 by reflexivity.
  repeat (split; [assumption|]).
  exact (proj2 (@search_raises_native _ _ poisoned (lit "q") h1) _ _ _ _ h2 h3 h4 h5).
Defined.

Lemma waitForDocument_returns_completed_witness :
  Forall (pending 5000 0) ready_at_third /\
  is_string (DocumentStatus.status (document_status "completed")) (lit "completed")
    = true /\
  waitForDocument (lit "doc_1") (Some 5000%Z) 0
    (ready_at_third ++ [(Returns (document_status "completed"), 99999%Z)])
  = Some (Returns (document_status "completed")).
Proof.
  assert (Forall (pending 5000 0) ready_at_third) as h1.
  { repeat constructor; eexists; cbn [fst snd];
      (split; [reflexivity|]); (split; [reflexivity|]); (split; [reflexivity|]); lia. }
  assert (is_string (DocumentStatus.status (document_status "completed"))
                    (lit "completed") = true) as h2 by reflexivity.
  split; [exact h1|]. split; [exact h2|].
  exact (@waitForDocument_returns_completed _ (lit "doc_1") (Some 5000%Z) 0%Z
           ready_at_third [] (document_status "completed") 99999%Z h1 h2).
Defined.

Lemma waitForDocument_ends_witness :
  never_ready <> [] /\
  paced (pollInterval_of None) 0 never_ready /\
  (5000 <= (Z.of_nat (List.length never_ready) - 1) * pollInterval_of None)%Z /\
  exists result,
    waitForDocument (lit "doc_1") (Some 5000%Z) 0 never_ready = Some result.
Proof.
  assert (never_ready <> []) as h1 by discriminate.
  assert (paced (pollInterval_of None) 0 never_ready) as h2
    by (cbn; repeat split; lia).
  assert (5000 <= (Z.of_nat (List.length never_ready) - 1) * pollInterval_of None)%Z
    as h3 by (cbn; lia).
  repeat (split; [assumption|]).
  exact (@waitForDocument_ends _ (lit "doc_1") (Some 5000%Z) None 0%Z never_ready
           h1 h2 h3).
Defined.

Lemma waitForDocument_errors_witness :
  Forall (fun poll => exists status, fst poll = Returns status) never_ready /\
  waitForDocument (lit "doc_1") (Some 5000%Z) 0 never_ready =
    Some (Raises (Ragora (processing_timeout (lit "doc_1")))) /\
  RagoraError.requestId (processing_timeout (lit "doc_1")) = Some (lit "doc_1").
Proof.
  assert (Forall (fun poll => exists status, fst poll = Returns status) never_ready) as h1
    by (repeat constructor; eexists; reflexivity).
  assert (waitForDocument (lit "doc_1") (Some 5000%Z) 0 never_ready =
          Some (Raises (Ragora (processing_timeout (lit "doc_1"))))) as h2
    by (vm_compute; reflexivity).
  split; [exact h1|]. split; [exact h2|].
  exact (proj1 (@waitForDocument_errors _ (lit "doc_1") (Some 5000%Z) 0%Z never_ready
                  (processing_timeout (lit "doc_1")) h1 h2)).
Defined.

Lemma missing_status_is_unknown_witness :
  nullish (get [] (lit "status")) = true /\
  getDocumentStatus_response (lit "doc_1") (VObj []) = Normal status_of_empty_body /\
  DocumentStatus.status status_of_empty_body = VStr (lit "unknown").
Proof.
  assert (nullish (get [] (lit "status")) = true) as h1 by reflexivity.
  assert (getDocumentStatus_response (lit "doc_1") (VObj []) = Normal status_of_empty_body)
    as h2 by reflexivity.
  split; [exact h1|]. split; [exact h2|].
  exact (proj1 (@missing_status_is_unknown _ (lit "doc_1") [] status_of_empty_body
                  h1 h2)).
Defined.

Lemma decoded_text_of_encoding_witness :
  snd (decode_chunks new_TextDecoder MoreSamples.accented_body) =
    [0xE9; 0xD83D; 0xDE00] /\
  decoder_state (fst (decode_chunks new_TextDecoder MoreSamples.accented_body)) =
    utf8_initial.
Proof.
  apply (@decoded_text_of_encoding MoreSamples.accented MoreSamples.accented_body).
  - repeat constructor.
  - vm_compute. reflexivity.
Defined.

End MoreSampleFacts.
